(** * Field normalisation and expiry alerts of the tenant dashboard

    A shallow embedding of the normalisers and of the alert classifier of
    [app.py], together with the part of the Python runtime they rest on:
    strings, truthiness, [str.strip], [str.lower], the [in] operator,
    [int]/[str]/[float] conversions, the [re] patterns the program uses,
    binary64 arithmetic, [datetime.strptime] and [date] arithmetic.

    Conventions of the model.
    - A Python [str] is a list of code points below 256 ([ascii]); the
      classification of a code point (digit, white space, upper case) is the
      one Python gives to that code point.
    - Python integers are [Z].  The interpreter-wide cap on the length of
      [int]/[str] conversions ([sys.set_int_max_str_digits]) is a setting of
      the process, not of the program, and is taken to be off.
    - A Python [float] is a binary64 number, [spec_float] with [prec = 53]
      and [emax = 1024].
    - A Python call either returns a value or raises: [res A].
    - The clock is an argument of the one function that reads it; what the
      functions write to the log is left out. *)

From Stdlib Require Import Decimal DecimalN String.
From Stdlib Require Import ZArith NArith List Bool Ascii Lia.
From Stdlib Require Import Floats.SpecFloat.
Import ListNotations.

(** ** Strings *)

Definition pystr := list ascii.

(** String literals of the source. *)
Definition lit (s : String.string) : pystr := String.list_ascii_of_string s.

Definition code (c : ascii) : N := N_of_ascii c.

Definition between (lo hi : N) (c : ascii) : bool :=
  ((lo <=? code c) && (code c <=? hi))%N.

(** [\d] and the digits [int] and [float] accept: below 256 these are
    exactly [0-9]. *)
Definition is_digit (c : ascii) : bool := between 48 57 c.

(** [str.isspace] on one code point, which is also [\s] of [re]:
    TAB..CR, FS..US, SPACE, NEL and NBSP. *)
Definition is_space (c : ascii) : bool :=
  between 9 13 c || between 28 32 c || (code c =? 133)%N || (code c =? 160)%N.

(** Upper-case code points: [A-Z] and the Latin-1 capitals but the
    multiplication sign. *)
Definition is_upper (c : ascii) : bool :=
  between 65 90 c || (between 192 222 c && negb (code c =? 215)%N).

Definition lower_char (c : ascii) : ascii :=
  if is_upper c then ascii_of_N (code c + 32) else c.

(** [s.lower()] *)
Definition lower (s : pystr) : pystr := map lower_char s.

(** Drops the white space a text starts with. *)
Fixpoint lstrip (s : pystr) : pystr :=
  match s with
  | c :: t => if is_space c then lstrip t else s
  | [] => []
  end.

(** Drops the white space a text ends with. *)
Fixpoint rstrip (s : pystr) : pystr :=
  match s with
  | c :: t =>
      match rstrip t with
      | [] => if is_space c then [] else [c]
      | r => c :: r
      end
  | [] => []
  end.

(** [s.strip()] *)
Definition strip (s : pystr) : pystr := rstrip (lstrip s).

Fixpoint pystr_eqb (a b : pystr) : bool :=
  match a, b with
  | [], [] => true
  | x :: a', y :: b' => Ascii.eqb x y && pystr_eqb a' b'
  | _, _ => false
  end.

Fixpoint startswith (s sub : pystr) : bool :=
  match sub, s with
  | [], _ => true
  | x :: sub', y :: s' => Ascii.eqb x y && startswith s' sub'
  | _ :: _, [] => false
  end.

(** [sub in s] on strings *)
Fixpoint contains (sub s : pystr) : bool :=
  startswith s sub ||
  match s with
  | _ :: t => contains sub t
  | [] => false
  end.

(** [x in [a, b, ...]] on a list of strings *)
Definition in_list (x : pystr) (l : list pystr) : bool :=
  existsb (pystr_eqb x) l.

(** ** Exceptions and results *)

Inductive exn : Type :=
| AttributeError
| ValueError
| OverflowError.

Inductive res (A : Type) : Type :=
| Ok (a : A)
| Raise (e : exn).

Arguments Ok {A} a.
Arguments Raise {A} e.

Definition bind {A B} (m : res A) (k : A -> res B) : res B :=
  match m with
  | Ok a => k a
  | Raise e => Raise e
  end.

Notation "x <- m ;; k" := (bind m (fun x => k))
  (at level 61, m at next level, right associativity).

(** [try: m  except E: h] for one exception class. *)
Definition try_except {A} (m : res A) (catch : exn -> bool) (h : res A) : res A :=
  match m with
  | Ok a => Ok a
  | Raise e => if catch e then h else Raise e
  end.

Definition is_ValueError (e : exn) : bool :=
  match e with ValueError => true | _ => false end.

(** [except Exception] catches every exception of the model. *)
Definition is_Exception (e : exn) : bool := true.

(** ** Integers and decimal text *)

Definition digit_char (n : N) : ascii := ascii_of_N (48 + n).

Fixpoint chars_of_uint (d : uint) : pystr :=
  match d with
  | Nil => []
  | D0 d => digit_char 0 :: chars_of_uint d
  | D1 d => digit_char 1 :: chars_of_uint d
  | D2 d => digit_char 2 :: chars_of_uint d
  | D3 d => digit_char 3 :: chars_of_uint d
  | D4 d => digit_char 4 :: chars_of_uint d
  | D5 d => digit_char 5 :: chars_of_uint d
  | D6 d => digit_char 6 :: chars_of_uint d
  | D7 d => digit_char 7 :: chars_of_uint d
  | D8 d => digit_char 8 :: chars_of_uint d
  | D9 d => digit_char 9 :: chars_of_uint d
  end.

Definition uint_digit (c : ascii) (d : uint) : uint :=
  match (code c - 48)%N with
  | 0 => D0 d | 1 => D1 d | 2 => D2 d | 3 => D3 d | 4 => D4 d
  | 5 => D5 d | 6 => D6 d | 7 => D7 d | 8 => D8 d | _ => D9 d
  end%N.

Fixpoint uint_of_chars (s : pystr) : uint :=
  match s with
  | [] => Nil
  | c :: t => uint_digit c (uint_of_chars t)
  end.

(** Value of a string of decimal digits. *)
Definition nat_value (s : pystr) : N := N.of_uint (uint_of_chars s).

(** [str(n)] for an integer. *)
Definition str_of_N (n : N) : pystr := chars_of_uint (N.to_uint n).

Definition str_of_int (z : Z) : pystr :=
  match z with
  | Zneg p => lit "-" ++ str_of_N (Npos p)
  | _ => str_of_N (Z.to_N z)
  end.

(** [int(s)] on text: surrounding white space is dropped and what is left
    has to be a non-empty run of digits.  (Signs and digit-group
    underscores, which [int] also reads, never reach it from this
    program and are not modelled.) *)
Definition int_of_str (s : pystr) : res Z :=
  let t := strip s in
  match t with
  | [] => Raise ValueError
  | _ => if forallb is_digit t then Ok (Z.of_N (nat_value t)) else Raise ValueError
  end.

(** ** Regular expressions

    The fragment of [re] the program and [strptime] need, with the
    matching discipline of the [re] engine: alternatives are tried from left
    to right, quantifiers are greedy, and the first way to match that the
    search meets is the match.  [rmatch] lists every way to match a prefix
    of the text, in the order the engine would meet them; each comes with
    the groups it captured and the text left over. *)

Inductive charset : Type :=
| Digit                       (* \d *)
| Space                       (* \s *)
| Lit (c : ascii)             (* one literal character *)
| Range (lo hi : ascii).      (* [lo-hi] *)

Inductive regex : Type :=
| REps
| RChar (cs : charset)
| RSeq (r1 r2 : regex)
| RAlt (r1 r2 : regex)
| ROpt (r : regex)            (* r?  *)
| RStar (cs : charset)        (* cs* *)
| RPlus (cs : charset)        (* cs+ *)
| RGroup (name : ascii) (r : regex).

(** [icase] is [re.IGNORECASE]. *)
Definition in_charset (icase : bool) (cs : charset) (c : ascii) : bool :=
  match cs with
  | Digit => is_digit c
  | Space => is_space c
  | Lit x =>
      if icase then Ascii.eqb (lower_char x) (lower_char c) else Ascii.eqb x c
  | Range lo hi => between (code lo) (code hi) c
  end.

Definition groups := list (ascii * pystr).

(** The part of [s] that was read when [rest] is what is left of it. *)
Definition consumed (s rest : pystr) : pystr :=
  firstn (length s - length rest) s.

Fixpoint star_matches (icase : bool) (cs : charset) (s : pystr)
  : list (groups * pystr) :=
  match s with
  | c :: t =>
      if in_charset icase cs c
      then star_matches icase cs t ++ [([], s)]
      else [([], s)]
  | [] => [([], [])]
  end.

Fixpoint rmatch (icase : bool) (r : regex) (s : pystr)
  : list (groups * pystr) :=
  match r with
  | REps => [([], s)]
  | RChar cs =>
      match s with
      | c :: t => if in_charset icase cs c then [([], t)] else []
      | [] => []
      end
  | RSeq r1 r2 =>
      flat_map
        (fun m1 => map (fun m2 => (fst m1 ++ fst m2, snd m2))
                       (rmatch icase r2 (snd m1)))
        (rmatch icase r1 s)
  | RAlt r1 r2 => rmatch icase r1 s ++ rmatch icase r2 s
  | ROpt r1 => rmatch icase r1 s ++ [([], s)]
  | RStar cs => star_matches icase cs s
  | RPlus cs =>
      match s with
      | c :: t => if in_charset icase cs c then star_matches icase cs t else []
      | [] => []
      end
  | RGroup name r1 =>
      map (fun m => ((name, consumed s (snd m)) :: fst m, snd m))
          (rmatch icase r1 s)
  end.

(** A match object: the whole match ([group(0)]), the named groups, and the
    text after the match. *)
Record match_obj : Type := mk_match {
  m_text : pystr;
  m_groups : groups;
  m_rest : pystr
}.

(** [re.match]: a match anchored at the start of [s]. *)
Definition re_match (icase : bool) (r : regex) (s : pystr) : option match_obj :=
  match rmatch icase r s with
  | (g, rest) :: _ => Some (mk_match (consumed s rest) g rest)
  | [] => None
  end.

(** [re.search]: the leftmost match. *)
Fixpoint re_search (r : regex) (s : pystr) : option match_obj :=
  match re_match false r s with
  | Some m => Some m
  | None =>
      match s with
      | _ :: t => re_search r t
      | [] => None
      end
  end.

(** [m.group(name)] *)
Fixpoint group (g : groups) (name : ascii) : option pystr :=
  match g with
  | (n, v) :: g' => if Ascii.eqb n name then Some v else group g' name
  | [] => None
  end.

(** [re.findall] for a pattern without groups: the texts of the successive
    non-overlapping matches, from left to right.  [skip] counts the
    characters of the running match that are still to be passed over. *)
Fixpoint findall_from (r : regex) (s : pystr) (skip : nat) : list pystr :=
  match skip with
  | S k =>
      match s with
      | _ :: t => findall_from r t k
      | [] => []
      end
  | O =>
      match re_match false r s with
      | Some m =>
          m_text m ::
          match s with
          | _ :: t => findall_from r t (pred (length (m_text m)))
          | [] => []
          end
      | None =>
          match s with
          | _ :: t => findall_from r t 0
          | [] => []
          end
      end
  end.

Definition findall (r : regex) (s : pystr) : list pystr := findall_from r s 0.

(** The three patterns of the normalisers. *)

(** [r'\d+'] *)
Definition re_integer : regex := RPlus Digit.

(** [r'\d+\.?\d*'] *)
Definition re_number : regex :=
  RSeq (RPlus Digit) (RSeq (ROpt (RChar (Lit "."))) (RStar Digit)).

(** The pattern of [normalize_rent_escalation]: group 1 holds the number
    pattern above and an optional percent sign follows it. *)
Definition re_percentage : regex :=
  RSeq (RGroup "1" re_number) (ROpt (RChar (Lit "%"))).

(** ** Floating point

    Python's [float] is IEEE 754 binary64.  Arithmetic is the one of
    [SpecFloat]; reading decimal text rounds the exact quotient once, to
    nearest even, the way [float(str)] does. *)

Definition prec : Z := 53.
Definition emax : Z := 1024.

Definition float := spec_float.

(** The binary64 number nearest to [num / den], for [0 <= num], [0 < den]. *)
Definition float_of_ratio (num den : Z) : float :=
  if (num =? 0)%Z then S754_zero false
  else
    let '(q, e, l) := SFdiv_core_binary prec emax num 0 den 0 in
    binary_round_aux prec emax false q e l.

(** Splits at the first point: the integer digits and, when there is a
    point, what follows it. *)
Fixpoint split_point (s : pystr) : pystr * option pystr :=
  match s with
  | [] => ([], None)
  | c :: t =>
      if Ascii.eqb c "." then ([], Some t)
      else let '(a, b) := split_point t in (c :: a, b)
  end.

(** [float(s)] on the texts the number pattern can produce: digits with at
    most one point among or after them.  (The other spellings [float]
    reads, signs, exponents, [inf], [nan], never reach it from this
    program; here they are rejected.) *)
Definition float_of_str (s : pystr) : res float :=
  let '(ip, fp) := split_point s in
  let fp := match fp with Some f => f | None => [] end in
  match ip ++ fp with
  | [] => Raise ValueError
  | ds =>
      if forallb is_digit ds
      then Ok (float_of_ratio (Z.of_N (nat_value ds)) (10 ^ Z.of_nat (length fp)))
      else Raise ValueError
  end.

(** [float(z)] for an integer: [OverflowError] when it does not fit. *)
Definition float_of_int (z : Z) : res float :=
  match binary_normalize prec emax z 0 false with
  | S754_infinity _ => Raise OverflowError
  | f => Ok f
  end.

(** [int(f)]: truncation towards zero; infinities and NaN raise. *)
Definition int_of_float (f : float) : res Z :=
  match f with
  | S754_nan => Raise ValueError
  | S754_infinity _ => Raise OverflowError
  | S754_zero _ => Ok 0%Z
  | S754_finite s m e =>
      let a := match e with
               | Zneg p => Z.shiftr (Zpos m) (Zpos p)
               | _ => Z.shiftl (Zpos m) e
               end in
      Ok (if s then Z.opp a else a)
  end.

(** [f == z] between a float and an integer compares the exact values. *)
Definition float_eq_int (f : float) (z : Z) : bool :=
  match f with
  | S754_nan | S754_infinity _ => false
  | S754_zero _ => (z =? 0)%Z
  | S754_finite s m e =>
      let sm := if s then Zneg m else Zpos m in
      match e with
      | Zneg p => (sm =? Z.shiftl z (Zpos p))%Z
      | _ => (Z.shiftl sm e =? z)%Z
      end
  end.

(** *** [repr] of a float

    The digits are the shortest decimal that reads back as the same float,
    and of those the nearest; ['r'] formatting switches to exponent
    notation when the decimal point falls at or before [-4] or after
    [16]. *)

(** A positive finite float as an exact fraction. *)
Definition ratio_of_finite (m : positive) (e : Z) : Z * Z :=
  match e with
  | Zneg p => (Zpos m, Z.shiftl 1 (Zpos p))
  | _ => (Z.shiftl (Zpos m) e, 1%Z)
  end.

(** [xn / xd < 10 ^ k] *)
Definition below_pow10 (xn xd k : Z) : bool :=
  match k with
  | Zneg p => (xn * 10 ^ Zpos p <? xd)%Z
  | _ => (xn <? 10 ^ k * xd)%Z
  end.

(** The least [k], from [k0] on, with [xn / xd < 10 ^ k]. *)
Fixpoint find_decpt (fuel : nat) (xn xd k : Z) : Z :=
  match fuel with
  | O => k
  | S fuel' => if below_pow10 xn xd k then k else find_decpt fuel' xn xd (k + 1)
  end.

(** [xn / xd] scaled by [10 ^ (- p)], as a fraction. *)
Definition scale_pow10 (xn xd p : Z) : Z * Z :=
  match p with
  | Zneg q => (xn * 10 ^ Zpos q, xd)%Z
  | _ => (xn, xd * 10 ^ p)%Z
  end.

(** The float that [d * 10 ^ p] reads as. *)
Definition float_of_decimal (d p : Z) : float :=
  match p with
  | Zneg q => float_of_ratio d (10 ^ Zpos q)
  | _ => float_of_ratio (d * 10 ^ p) 1
  end.

Definition same_finite (f : float) (m : positive) (e : Z) : bool :=
  match f with
  | S754_finite false m' e' => Pos.eqb m m' && (e =? e')%Z
  | _ => false
  end.

(** Looks for [n]-digit decimals that read back as [m * 2 ^ e], for
    [n], [n + 1], ...; the two candidates at each length are the decimals on
    either side of the value. *)
Fixpoint shortest_from (fuel : nat) (m : positive) (e : Z) (decpt n : Z) : Z * Z :=
  let p := (decpt - n)%Z in
  let '(xn, xd) := ratio_of_finite m e in
  let '(sn, sd) := scale_pow10 xn xd p in
  let lo := (sn / sd)%Z in
  let hi := (lo + 1)%Z in
  let r2 := (2 * (sn mod sd))%Z in
  let nearest :=
    if (r2 <? sd)%Z then lo
    else if (sd <? r2)%Z then hi
    else if Z.even lo then lo else hi in
  let ok_lo := same_finite (float_of_decimal lo p) m e in
  let ok_hi := same_finite (float_of_decimal hi p) m e in
  match fuel with
  | O => (nearest, p)
  | S fuel' =>
      if ok_lo && ok_hi then (nearest, p)
      else if ok_lo then (lo, p)
      else if ok_hi then (hi, p)
      else shortest_from fuel' m e decpt (n + 1)
  end.

Fixpoint strip_zeros_rev (r : pystr) (k : Z) : pystr * Z :=
  match r with
  | c :: t =>
      if Ascii.eqb c "0" then
        match t with
        | [] => (r, k)
        | _ => strip_zeros_rev t (k + 1)
        end
      else (r, k)
  | [] => ([], k)
  end.

(** The digits of the shortest decimal and the position of its point:
    the value is [0.d1 d2 ... dn * 10 ^ decpt]. *)
Definition shortest_digits (m : positive) (e : Z) : pystr * Z :=
  let '(xn, xd) := ratio_of_finite m e in
  let decpt := find_decpt 700 xn xd (-330) in
  let '(d, p) := shortest_from 16 m e decpt 1 in
  let '(r, p') := strip_zeros_rev (rev (str_of_N (Z.to_N d))) p in
  (rev r, (p' + Z.of_nat (length r))%Z).

Definition zeros (n : Z) : pystr := repeat "0"%char (Z.to_nat n).

Definition pad2 (s : pystr) : pystr :=
  match s with
  | [c] => ["0"%char; c]
  | _ => s
  end.

Definition format_repr (ds : pystr) (decpt : Z) : pystr :=
  let n := Z.of_nat (length ds) in
  if ((decpt <=? -4) || (16 <? decpt))%Z then
    let x := (decpt - 1)%Z in
    firstn 1 ds
    ++ match skipn 1 ds with [] => [] | t => lit "." ++ t end
    ++ lit "e" ++ (if (x <? 0)%Z then lit "-" else lit "+")
    ++ pad2 (str_of_N (Z.to_N (Z.abs x)))
  else if (decpt <=? 0)%Z then lit "0." ++ zeros (- decpt) ++ ds
  else if (n <=? decpt)%Z then ds ++ zeros (decpt - n) ++ lit ".0"
  else firstn (Z.to_nat decpt) ds ++ lit "." ++ skipn (Z.to_nat decpt) ds.

(** [str(f)], which is [repr(f)], for a float. *)
Definition float_repr (f : float) : pystr :=
  match f with
  | S754_nan => lit "nan"
  | S754_infinity s => (if s then lit "-" else []) ++ lit "inf"
  | S754_zero s => (if s then lit "-" else []) ++ lit "0.0"
  | S754_finite s m e =>
      let '(ds, decpt) := shortest_digits m e in
      (if s then lit "-" else []) ++ format_repr ds decpt
  end.

(** ** Python values

    The scalars that [json.loads] can put in a record. *)

Inductive pyval : Type :=
| VNone
| VBool (b : bool)
| VInt (z : Z)
| VFloat (f : float)
| VStr (s : pystr).

(** Truth value of an object, as [not v] and [if v] see it. *)
Definition truthy (v : pyval) : bool :=
  match v with
  | VNone => false
  | VBool b => b
  | VInt z => negb (z =? 0)%Z
  | VFloat (S754_zero _) => false
  | VFloat _ => true
  | VStr [] => false
  | VStr _ => true
  end.

(** [str(v)] *)
Definition py_str (v : pyval) : pystr :=
  match v with
  | VNone => lit "None"
  | VBool true => lit "True"
  | VBool false => lit "False"
  | VInt z => str_of_int z
  | VFloat f => float_repr f
  | VStr s => s
  end.

(** [v.strip()]: only strings have the method. *)
Definition method_strip (v : pyval) : res pystr :=
  match v with
  | VStr s => Ok (strip s)
  | _ => Raise AttributeError
  end.

(** ** Dates

    A [datetime.date] is identified with its proleptic Gregorian ordinal
    ([date.toordinal()], day 1 is 0001-01-01), on which the comparison of
    dates and the subtraction of a [timedelta] work. *)

Record date : Type := mk_date { toordinal : Z }.

Definition MINYEAR : Z := 1.
Definition MAXYEAR : Z := 9999.
Definition MAXORDINAL : Z := 3652059.

Definition is_leap (y : Z) : bool :=
  ((y mod 4 =? 0) && (negb (y mod 100 =? 0) || (y mod 400 =? 0)))%Z.

Definition days_before_year (y : Z) : Z :=
  let y1 := (y - 1)%Z in
  (y1 * 365 + y1 / 4 - y1 / 100 + y1 / 400)%Z.

Definition days_in_month (y m : Z) : Z :=
  match m with
  | 2 => if is_leap y then 29 else 28
  | 4 | 6 | 9 | 11 => 30
  | _ => 31
  end%Z.

Definition days_before_month (y m : Z) : Z :=
  (match m with
   | 1 => 0 | 2 => 31 | 3 => 59 | 4 => 90 | 5 => 120 | 6 => 151
   | 7 => 181 | 8 => 212 | 9 => 243 | 10 => 273 | 11 => 304 | _ => 334
   end + (if (2 <? m) && is_leap y then 1 else 0))%Z.

Definition ymd2ord (y m d : Z) : Z :=
  (days_before_year y + days_before_month y m + d)%Z.

(** [date(y, m, d)]: [ValueError] unless the fields name a day. *)
Definition date_new (y m d : Z) : res date :=
  if ((MINYEAR <=? y) && (y <=? MAXYEAR) && (1 <=? m) && (m <=? 12)
      && (1 <=? d) && (d <=? days_in_month y m))%Z
  then Ok (mk_date (ymd2ord y m d))
  else Raise ValueError.

(** [d - timedelta(days=n)]: [OverflowError] outside the supported range. *)
Definition date_sub_days (d : date) (n : Z) : res date :=
  let o := (toordinal d - n)%Z in
  if ((0 <? o) && (o <=? MAXORDINAL))%Z then Ok (mk_date o)
  else Raise OverflowError.

Definition date_ltb (a b : date) : bool := (toordinal a <? toordinal b)%Z.
Definition date_leb (a b : date) : bool := (toordinal a <=? toordinal b)%Z.

(** A reading of the clock: a calendar day and the time of day in
    microseconds. *)
Record datetime : Type := mk_datetime { dt_date : date; dt_micros : Z }.

(** ** [datetime.strptime]

    The format is turned into a regular expression, directive by directive;
    the text has to match it from its first to its last character; the
    fields are read off the groups.  Month names are those of the C
    locale. *)

Definition word (w : pystr) : regex :=
  fold_right (fun c r => RSeq (RChar (Lit c)) r) REps w.

Fixpoint any_of (r : regex) (rs : list regex) : regex :=
  match rs with
  | [] => r
  | r' :: rs' => RAlt r (any_of r' rs')
  end.

Definition a_month : list pystr :=
  [ []; lit "jan"; lit "feb"; lit "mar"; lit "apr"; lit "may"; lit "jun";
    lit "jul"; lit "aug"; lit "sep"; lit "oct"; lit "nov"; lit "dec" ].

Definition f_month : list pystr :=
  [ []; lit "january"; lit "february"; lit "march"; lit "april"; lit "may";
    lit "june"; lit "july"; lit "august"; lit "september"; lit "october";
    lit "november"; lit "december" ].

(** Stable insertion by decreasing length, as [sorted(.., key=len,
    reverse=True)] orders the names of an alternation. *)
Fixpoint insert_by_length (w : pystr) (l : list pystr) : list pystr :=
  match l with
  | [] => [w]
  | x :: t =>
      if (length x <? length w)%nat then w :: l else x :: insert_by_length w t
  end.

Definition sort_by_length (l : list pystr) : list pystr :=
  fold_left (fun acc w => insert_by_length w acc) l [].

Definition seq_to_re (name : ascii) (ws : list pystr) : option regex :=
  match map word (sort_by_length ws) with
  | [] => None
  | r :: rs => Some (RGroup name (any_of r rs))
  end.

(** The regular expression of a directive. *)
Definition directive (d : ascii) : option regex :=
  match d with
  | "d"%char =>
      Some (RGroup "d"
        (any_of (RSeq (RChar (Lit "3")) (RChar (Range "0" "1")))
           [ RSeq (RChar (Range "1" "2")) (RChar Digit);
             RSeq (RChar (Lit "0")) (RChar (Range "1" "9"));
             RChar (Range "1" "9");
             RSeq (RChar (Lit " ")) (RChar (Range "1" "9")) ]))
  | "m"%char =>
      Some (RGroup "m"
        (any_of (RSeq (RChar (Lit "1")) (RChar (Range "0" "2")))
           [ RSeq (RChar (Lit "0")) (RChar (Range "1" "9"));
             RChar (Range "1" "9") ]))
  | "Y"%char =>
      Some (RGroup "Y"
        (RSeq (RChar Digit) (RSeq (RChar Digit) (RSeq (RChar Digit) (RChar Digit)))))
  | "B"%char => seq_to_re "B" (tl f_month)
  | "b"%char => seq_to_re "b" (tl a_month)
  | _ => None
  end.

(** The regular expression of a format: a directive for [%x], [\s+] for
    a run of white space, the character itself otherwise. *)
Fixpoint format_regex (fmt : pystr) : option regex :=
  match fmt with
  | [] => Some REps
  | c :: t =>
      if Ascii.eqb c "%" then
        match t with
        | d :: t' =>
            match directive d, format_regex t' with
            | Some r, Some r' => Some (RSeq r r')
            | _, _ => None
            end
        | [] => None
        end
      else
        match format_regex t with
        | Some r' =>
            if is_space c then
              match t with
              | c' :: _ => if is_space c' then Some r' else Some (RSeq (RPlus Space) r')
              | [] => Some (RSeq (RPlus Space) r')
              end
            else Some (RSeq (RChar (Lit c)) r')
        | None => None
        end
  end.

(** [l.index(x)] *)
Fixpoint index_of (x : pystr) (l : list pystr) : res Z :=
  match l with
  | [] => Raise ValueError
  | y :: t => if pystr_eqb x y then Ok 0%Z else (i <- index_of x t ;; Ok (i + 1)%Z)
  end.

(** [datetime.strptime(data, fmt).date()] *)
Definition strptime_date (data fmt : pystr) : res date :=
  match format_regex fmt with
  | None => Raise ValueError
  | Some r =>
      match re_match true r data with
      | None => Raise ValueError
      | Some found =>
          match m_rest found with
          | _ :: _ => Raise ValueError
          | [] =>
              let g := m_groups found in
              year <- match group g "Y" with
                      | Some y => int_of_str y
                      | None => Ok 1900%Z
                      end ;;
              month <- match group g "m", group g "B", group g "b" with
                       | Some m, _, _ => int_of_str m
                       | None, Some b, _ => index_of (lower b) f_month
                       | None, None, Some b => index_of (lower b) a_month
                       | None, None, None => Ok 1%Z
                       end ;;
              day <- match group g "d" with
                     | Some d => int_of_str d
                     | None => Ok 1%Z
                     end ;;
              date_new year month day
          end
      end
  end.

(** * The program: [app.py] *)

(** The test that opens every normaliser but the first,
    [not v or str(v).strip() == ""]. *)
Definition is_blank (v : pyval) : bool :=
  negb (truthy v) || pystr_eqb (strip (py_str v)) [].

(** The same test in [normalize_period_of_rent] and
    [calculate_alert_status], which call [strip] on the argument itself:
    [not v or v.strip() == ""]. *)
Definition is_blank_raw (v : pyval) : res bool :=
  if negb (truthy v) then Ok true
  else (s <- method_strip v ;; Ok (pystr_eqb s [])).

Definition normalize_period_of_rent (period_value : pyval) : res pystr :=
  blank <- is_blank_raw period_value ;;
  if blank then Ok []
  else
    let period_str := strip (lower (py_str period_value)) in
    let numbers := findall re_integer period_str in
    match numbers with
    | [] => Ok []
    | first :: _ =>
        num <- int_of_str first ;;
        let months :=
          if contains (lit "year") period_str then (num * 12)%Z
          else if contains (lit "month") period_str then num
          else if contains (lit "quarter") period_str then (num * 3)%Z
          else num in
        Ok (str_of_int months)
    end.

Definition normalize_rent_amount (rent_value : pyval) : res pystr :=
  if is_blank rent_value then Ok []
  else
    let rent_str := strip (py_str rent_value) in
    let numbers := findall re_number rent_str in
    match numbers with
    | [] => Ok []
    | first :: _ => Ok first
    end.

(** The accumulator [total] of [normalize_maintenance_amount]: the integer
    [0] before the first addition, a float after it. *)
Inductive number : Type :=
| NInt (z : Z)
| NFloat (f : float).

(** [total + f] *)
Definition number_add_float (total : number) (f : float) : res number :=
  match total with
  | NInt z => (zf <- float_of_int z ;; Ok (NFloat (SFadd prec emax zf f)))
  | NFloat t => Ok (NFloat (SFadd prec emax t f))
  end.

(** [int(total)] *)
Definition number_int (total : number) : res Z :=
  match total with
  | NInt z => Ok z
  | NFloat f => int_of_float f
  end.

(** [total == i] for an integer [i] *)
Definition number_eq_int (total : number) (i : Z) : bool :=
  match total with
  | NInt z => (z =? i)%Z
  | NFloat f => float_eq_int f i
  end.

(** [str(total)] *)
Definition number_str (total : number) : pystr :=
  match total with
  | NInt z => str_of_int z
  | NFloat f => float_repr f
  end.

(** The loop that adds the numbers up; a [ValueError] of [float] skips the
    item. *)
Fixpoint sum_numbers (numbers : list pystr) (total : number) : res number :=
  match numbers with
  | [] => Ok total
  | num_str :: rest =>
      total' <- try_except
                  (f <- float_of_str num_str ;; number_add_float total f)
                  is_ValueError
                  (Ok total) ;;
      sum_numbers rest total'
  end.

Definition normalize_maintenance_amount (maintenance_value : pyval) : res pystr :=
  if is_blank maintenance_value then Ok []
  else
    let maintenance_str := strip (py_str maintenance_value) in
    let numbers := findall re_number maintenance_str in
    match numbers with
    | [] => Ok []
    | _ =>
        total <- sum_numbers numbers (NInt 0) ;;
        i <- number_int total ;;
        if number_eq_int total i then Ok (str_of_int i)
        else Ok (number_str total)
    end.

Definition normalize_rent_escalation (escalation_value : pyval) : res pystr :=
  if is_blank escalation_value then Ok []
  else
    let escalation_str := strip (py_str escalation_value) in
    match re_search re_percentage escalation_str with
    | Some percentage_match =>
        match group (m_groups percentage_match) "1" with
        | Some number => Ok (number ++ lit "%")
        | None => Ok (lit "None%")
        end
    | None => Ok []
    end.

Definition normalize_area_sqft (area_value : pyval) : res pystr :=
  if is_blank area_value then Ok []
  else
    let area_str := strip (py_str area_value) in
    let numbers := findall re_integer area_str in
    match numbers with
    | first :: _ => Ok first
    | [] => Ok []
    end.

Definition normalize_floor (floor_value : pyval) : res pystr :=
  if is_blank floor_value then Ok []
  else
    let floor_str := lower (strip (py_str floor_value)) in
    if contains (lit "ground") floor_str || contains (lit "g.f") floor_str
       || in_list floor_str [lit "gf"; lit "0"]
    then Ok (lit "Ground Floor")
    else if contains (lit "1st") floor_str || contains (lit "first") floor_str
            || in_list floor_str [lit "1"; lit "f1"]
    then Ok (lit "1st Floor")
    else if contains (lit "2nd") floor_str || contains (lit "second") floor_str
            || in_list floor_str [lit "2"; lit "f2"]
    then Ok (lit "2nd Floor")
    else if contains (lit "3rd") floor_str || contains (lit "third") floor_str
            || in_list floor_str [lit "3"; lit "f3"]
    then Ok (lit "3rd Floor")
    else if contains (lit "4th") floor_str || contains (lit "fourth") floor_str
            || in_list floor_str [lit "4"; lit "f4"]
    then Ok (lit "4th Floor")
    else if contains (lit "5th") floor_str || contains (lit "fifth") floor_str
            || in_list floor_str [lit "5"; lit "f5"]
    then Ok (lit "5th Floor")
    else Ok (strip (py_str floor_value)).

Definition normalize_building (building_value : pyval) : res pystr :=
  if is_blank building_value then Ok []
  else
    let building_str := lower (strip (py_str building_value)) in
    if contains (lit "jp classic") building_str
       || contains (lit "jp-classic") building_str
    then Ok (lit "JP Classic")
    else if contains (lit "silver software") building_str
            || contains (lit "silver-software") building_str
    then Ok (lit "Silver Software")
    else Ok (strip (py_str building_value)).

(** The normalisation of [rental_period_greater_than_lock_in_period].  The
    source has no function for it: the same block is written out in
    [extract_information_with_gpt4o], [dashboard] and [download_csv]. *)
Definition normalize_boolean_flag (rental_period_value : pyval) : pystr :=
  match rental_period_value with
  | VBool b => if b then lit "True" else lit "False"
  | VStr s =>
      let rental_period_value := strip s in
      if in_list (lower rental_period_value) [lit "yes"; lit "true"; lit "1"]
      then lit "True"
      else if in_list (lower rental_period_value) [lit "no"; lit "false"; lit "0"]
      then lit "False"
      else lit "False"
  | _ => lit "False"
  end.

(** ** The alert classifier *)

Definition date_formats : list pystr :=
  [ lit "%Y-%m-%d"; lit "%d/%m/%Y"; lit "%m/%d/%Y"; lit "%d-%m-%Y";
    lit "%Y/%m/%d"; lit "%m-%d-%Y"; lit "%d.%m.%Y"; lit "%Y.%m.%d";
    lit "%B %d, %Y"; lit "%d %B %Y"; lit "%b %d, %Y"; lit "%d %b %Y" ].

(** The loop over the formats: the first that parses wins, a [ValueError]
    moves on to the next, and [None] is left when none parses. *)
Fixpoint parse_date (formats : list pystr) (date_str : pystr) : res (option date) :=
  match formats with
  | [] => Ok None
  | fmt :: rest =>
      try_except
        (d <- strptime_date date_str fmt ;; Ok (Some d))
        is_ValueError
        (parse_date rest date_str)
  end.

(** The [return] statement that the chain of comparisons ends in. *)
Inductive branch : Type :=
| BrNoAlert
| BrThreeMonths
| BrTwoMonths
| BrOneMonth
| BrExpired
| BrElse.

Definition alert_branch
  (today three_months_before two_months_before one_month_before expiry_date : date)
  : branch :=
  if date_ltb today three_months_before then BrNoAlert
  else if date_leb three_months_before today && date_ltb today two_months_before
  then BrThreeMonths
  else if date_leb two_months_before today && date_ltb today one_month_before
  then BrTwoMonths
  else if date_leb one_month_before today && date_ltb today expiry_date
  then BrOneMonth
  else if date_leb expiry_date today then BrExpired
  else BrElse.

Definition branch_status (b : branch) : pystr :=
  match b with
  | BrNoAlert => []
  | BrThreeMonths => lit "three_months"
  | BrTwoMonths => lit "two_months"
  | BrOneMonth => lit "one_month"
  | BrExpired => lit "expired"
  | BrElse => []
  end.

(** [now] is what [datetime.today()] reads off the clock. *)
Definition calculate_alert_status (now : datetime) (agreement_expiry_date : pyval)
  : res pystr :=
  blank <- is_blank_raw agreement_expiry_date ;;
  if blank then Ok []
  else
    try_except
      (date_str <- method_strip agreement_expiry_date ;;
       expiry_date <- parse_date date_formats date_str ;;
       match expiry_date with
       | None => Ok []
       | Some expiry_date =>
           let today := dt_date now in
           three_months_before <- date_sub_days expiry_date 90 ;;
           two_months_before <- date_sub_days expiry_date 60 ;;
           one_month_before <- date_sub_days expiry_date 30 ;;
           Ok (branch_status
                 (alert_branch today three_months_before two_months_before
                               one_month_before expiry_date))
       end)
      is_Exception
      (Ok []).

(** * Specifications

    Plain scanners that say, without regular expressions, what the patterns
    of the normalisers pick out of a text, and the functions the properties
    below are stated with. *)

(** The digits a text starts with, and what follows them. *)
Fixpoint take_digits (s : pystr) : pystr :=
  match s with
  | c :: t => if is_digit c then c :: take_digits t else []
  | [] => []
  end.

Fixpoint drop_digits (s : pystr) : pystr :=
  match s with
  | c :: t => if is_digit c then drop_digits t else s
  | [] => []
  end.

(** The first maximal run of digits of a text. *)
Fixpoint first_integer (s : pystr) : option pystr :=
  match s with
  | c :: t => if is_digit c then Some (take_digits s) else first_integer t
  | [] => None
  end.

(** A number at the start of a text: digits, then possibly a point and
    further digits. *)
Definition take_number (s : pystr) : pystr :=
  take_digits s ++
  match drop_digits s with
  | c :: u => if Ascii.eqb c "." then c :: take_digits u else []
  | [] => []
  end.

Definition drop_number (s : pystr) : pystr :=
  match drop_digits s with
  | c :: u => if Ascii.eqb c "." then drop_digits u else c :: u
  | [] => []
  end.

(** The first number of a text. *)
Fixpoint first_number (s : pystr) : option pystr :=
  match s with
  | c :: t => if is_digit c then Some (take_number s) else first_number t
  | [] => None
  end.

(** A text that cannot continue a number: it does not start with a digit
    or a point. *)
Definition ends_number (rest : pystr) : Prop :=
  match rest with
  | c :: _ => is_digit c = false /\ Ascii.eqb c "." = false
  | [] => True
  end.

(** All the numbers of a text, from left to right; [skip] counts the
    characters of the last number that are still to be passed over. *)
Fixpoint numbers_from (s : pystr) (skip : nat) : list pystr :=
  match skip with
  | S k =>
      match s with
      | _ :: t => numbers_from t k
      | [] => []
      end
  | O =>
      match s with
      | c :: t =>
          if is_digit c
          then take_number s :: numbers_from t (pred (length (take_number s)))
          else numbers_from t 0
      | [] => []
      end
  end.

Definition all_numbers (s : pystr) : list pystr := numbers_from s 0.

(** The float a number stands for. *)
Definition number_float (n : pystr) : float :=
  match float_of_str n with
  | Ok f => f
  | Raise _ => S754_zero false
  end.

(** The binary64 sum of numbers, added up from left to right. *)
Definition float_sum (l : list pystr) : float :=
  fold_left (fun total n => SFadd prec emax total (number_float n)) l
            (S754_zero false).

(** The text of a total: that of its integer value when it is one, its
    [repr] otherwise; no text for an infinite total. *)
Definition render_total (total : float) : res pystr :=
  i <- int_of_float total ;;
  Ok (if float_eq_int total i then str_of_int i else float_repr total).

(** The number of months a unit stands for, in the order in which
    [normalize_period_of_rent] asks for the key words. *)
Definition unit_factor (text : pystr) : Z :=
  if contains (lit "year") text then 12
  else if contains (lit "month") text then 1
  else if contains (lit "quarter") text then 3
  else 1.

(** A period in months: the first integer of the text times the factor of
    the unit, the unit being looked for without regard to case. *)
Definition period_in_months (s : pystr) : pystr :=
  match first_integer s with
  | Some d => str_of_int (Z.of_N (nat_value d) * unit_factor (lower s))
  | None => []
  end.



(** A text that does not start with white space. *)
Definition no_lead (s : pystr) : Prop :=
  match s with c :: _ => is_space c = false | [] => True end.

(** The text of an optional match, [""] standing for no match. *)
Definition opt_text (o : option pystr) : pystr :=
  match o with Some x => x | None => [] end.

(** The date the classifier reads a text as, if any. *)
Definition expiry_of (s : pystr) : res (option date) :=
  parse_date date_formats (strip s).

(** The five interval rules, as the chain of comparisons writes them. *)
Definition interval_rules
  (today three_months_before two_months_before one_month_before expiry_date : date)
  : list bool :=
  [ date_ltb today three_months_before;
    date_leb three_months_before today && date_ltb today two_months_before;
    date_leb two_months_before today && date_ltb today one_month_before;
    date_leb one_month_before today && date_ltb today expiry_date;
    date_leb expiry_date today ].

(** The values of [alert_status]. *)
Definition alert_tiers : list pystr :=
  [ []; lit "three_months"; lit "two_months"; lit "one_month"; lit "expired" ].

(** The calendar day [y-m-d], for fields that name one. *)
Definition day_of (y m d : Z) : date := mk_date (ymd2ord y m d).

(** A clock reading on a given day, at midnight. *)
Definition at_day (d : date) : datetime := mk_datetime d 0.

(** The digit 1 followed by 309 zeros, that is 10 ^ 309, which is more
    than the largest binary64 number. *)
Definition ten_pow_309 : pystr := lit "1" ++ repeat "0"%char 309.

(** * More of [app.py]: records, the stores and the settings

    What follows models the functions around the normalisers.  The JSON
    files are taken to load and save without error; their contents are the
    state that is passed along.  A record is a JSON object whose values
    are scalars. *)

(** ** Records *)

(** A [dict] with string keys, in insertion order. *)
Definition dict := list (pystr * pyval).

(** The value under a key, if the key is there. *)
Fixpoint dict_get (d : dict) (k : pystr) : option pyval :=
  match d with
  | [] => None
  | (k', v) :: d' => if pystr_eqb k' k then Some v else dict_get d' k
  end.

(** [d.get(k, default)] *)
Definition get_or (d : dict) (k : pystr) (default : pyval) : pyval :=
  match dict_get d k with
  | Some v => v
  | None => default
  end.

(** [d.get(k)], which is [None] for a key that is not there *)
Definition get_or_none (d : dict) (k : pystr) : pyval := get_or d k VNone.

(** [k in d] *)
Definition has_key (d : dict) (k : pystr) : bool :=
  match dict_get d k with
  | Some _ => true
  | None => false
  end.

(** [d[k] = v]: the value is replaced where the key is, a new key goes to
    the end. *)
Fixpoint dict_set (d : dict) (k : pystr) (v : pyval) : dict :=
  match d with
  | [] => [(k, v)]
  | (k', v') :: d' =>
      if pystr_eqb k' k then (k', v) :: d' else (k', v') :: dict_set d' k v
  end.

(** [del d[k]], for a key that is there *)
Fixpoint dict_del (d : dict) (k : pystr) : dict :=
  match d with
  | [] => []
  | (k', v') :: d' =>
      if pystr_eqb k' k then d' else (k', v') :: dict_del d' k
  end.

(** [v == s] for a string [s]: only an equal string is equal to it. *)
Definition eq_str (v : pyval) (s : pystr) : bool :=
  match v with
  | VStr t => pystr_eqb t s
  | _ => false
  end.

(** Truth value of a [dict]. *)
Definition dict_truthy (d : dict) : bool :=
  match d with
  | [] => false
  | _ => true
  end.

(** ** Uploads *)

(** [s.rsplit(sep, 1)] for a separator of one character: the text is cut
    at the last separator, if there is one. *)
Fixpoint rsplit_last (sep : ascii) (s : pystr) : option (pystr * pystr) :=
  match s with
  | [] => None
  | c :: t =>
      match rsplit_last sep t with
      | Some (a, b) => Some (c :: a, b)
      | None => if Ascii.eqb c sep then Some ([], t) else None
      end
  end.

Definition rsplit1 (sep : ascii) (s : pystr) : list pystr :=
  match rsplit_last sep s with
  | Some (a, b) => [a; b]
  | None => [s]
  end.

Definition ALLOWED_EXTENSIONS : list pystr := [lit "pdf"].

(** [allowed_file]; [None] stands for the [IndexError] of [parts[1]]. *)
Definition allowed_file (filename : pystr) : option bool :=
  if contains (lit ".") filename then
    match nth_error (rsplit1 "." filename) 1 with
    | Some ext => Some (in_list (lower ext) ALLOWED_EXTENSIONS)
    | None => None
    end
  else Some false.

(** ** Tenants and their Gmail addresses *)

(** [find_tenant_gmail]: the address of the first pair whose tenant name
    is the given one, up to case and surrounding white space; [None] when
    there is none. *)
Fixpoint find_tenant_gmail (tenant_name : pyval) (tenant_gmail_pairs : list dict)
  : res pyval :=
  match tenant_gmail_pairs with
  | [] => Ok VNone
  | p :: rest =>
      a <- method_strip (get_or p (lit "tenant_name") (VStr [])) ;;
      b <- method_strip tenant_name ;;
      if pystr_eqb (lower a) (lower b)
      then Ok (get_or p (lit "gmail_address") (VStr []))
      else find_tenant_gmail tenant_name rest
  end.

(** The test of the loop of [find_tenant_gmail] on one pair. *)
Definition name_matches (tenant_name : pyval) (p : dict) : res bool :=
  a <- method_strip (get_or p (lit "tenant_name") (VStr [])) ;;
  b <- method_strip tenant_name ;;
  Ok (pystr_eqb (lower a) (lower b)).

(** The settings file: the list under ["tenant_gmail_pairs"], if the key
    is there, and the other keys. *)
Record settings : Type := mk_settings {
  tenant_gmail_pairs : option (list dict);
  other_settings : dict
}.

(** [settings.get("tenant_gmail_pairs", [])] *)
Definition pairs_of (s : settings) : list dict :=
  match tenant_gmail_pairs s with
  | Some l => l
  | None => []
  end.

(** The characters of [[a-zA-Z0-9._%+-]]. *)
Definition email_char (c : ascii) : bool :=
  between 97 122 c || between 65 90 c || between 48 57 c
  || in_list [c] [lit "."; lit "_"; lit "%"; lit "+"; lit "-"].

Fixpoint drop_email_chars (s : pystr) : pystr :=
  match s with
  | c :: t => if email_char c then drop_email_chars t else s
  | [] => []
  end.

(** [re.match(email_pattern, s)] for the pattern of [add_gmail], a
    non-empty run of the characters above, then ["@gmail.com"], then the
    end of the text: [@] is not one of the characters, so the run is
    the longest there is, and [$] also matches in front of a line feed that
    ends the text. *)
Definition matches_email_pattern (s : pystr) : bool :=
  match s with
  | c :: _ =>
      email_char c &&
      in_list (drop_email_chars s)
              [lit "@gmail.com"; lit "@gmail.com" ++ [ascii_of_nat 10]]
  | [] => false
  end.

(** The address of a pair, [pair.get("gmail_address")]. *)
Definition address_of (p : dict) : pyval := get_or_none p (lit "gmail_address").

(** A Gmail address as the form accepts it: a non-empty local part of the
    characters above and the domain. *)
Definition well_formed_gmail (v : pyval) : Prop :=
  exists local,
    v = VStr (local ++ lit "@gmail.com")
    /\ local <> [] /\ forallb email_char local = true.

(** [any(pair.get("gmail_address") == gmail_address for pair in pairs)] *)
Definition existing_gmail (pairs : list dict) (gmail_address : pystr) : bool :=
  existsb (fun p => eq_str (get_or_none p (lit "gmail_address")) gmail_address)
          pairs.

(** [add_gmail]: the settings the request leaves in the file, for the
    two fields of the form. *)
Definition add_gmail (form_tenant_name form_gmail_address : pystr) (s : settings)
  : settings :=
  let tenant_name := strip form_tenant_name in
  let gmail_address := strip form_gmail_address in
  match gmail_address with
  | [] => s
  | _ =>
      if negb (matches_email_pattern gmail_address) then s
      else if existing_gmail (pairs_of s) gmail_address then s
      else
        let new_pair := [ (lit "tenant_name", VStr tenant_name);
                          (lit "gmail_address", VStr gmail_address) ] in
        mk_settings (Some (pairs_of s ++ [new_pair])) (other_settings s)
  end.

(** [remove_gmail] *)
Definition remove_gmail (form_gmail_address : pystr) (s : settings) : settings :=
  let gmail_address := strip form_gmail_address in
  match gmail_address with
  | [] => s
  | _ =>
      let updated_pairs :=
        filter (fun p =>
                  negb (eq_str (get_or_none p (lit "gmail_address")) gmail_address))
               (pairs_of s) in
      if (length updated_pairs <? length (pairs_of s))%nat
      then mk_settings (Some updated_pairs) (other_settings s)
      else s
  end.

(** ** The agreements and the archive *)

(** The contents of the two files. *)
Record store : Type := mk_store {
  agreements : list dict;
  archived : list dict
}.

(** [a.get("id") == agreement_id] *)
Definition has_id (agreement_id : pystr) (a : dict) : bool :=
  eq_str (get_or_none a (lit "id")) agreement_id.

(** The loop that looks for the first record with the id. *)
Fixpoint find_by_id (l : list dict) (agreement_id : pystr) : option dict :=
  match l with
  | [] => None
  | a :: l' => if has_id agreement_id a then Some a else find_by_id l' agreement_id
  end.

(** [[a for a in l if a.get("id") != agreement_id]] *)
Definition without_id (l : list dict) (agreement_id : pystr) : list dict :=
  filter (fun a => negb (has_id agreement_id a)) l.

(** [archive_agreement]; [now_iso] is [datetime.now().isoformat()]. *)
Definition archive_agreement (now_iso : pystr) (agreement : dict) (st : store)
  : store :=
  let agreement := dict_set agreement (lit "archived_timestamp") (VStr now_iso) in
  mk_store (agreements st) (archived st ++ [agreement]).

(** [delete_agreement] *)
Definition delete_agreement (now_iso agreement_id : pystr) (st : store) : store :=
  match find_by_id (agreements st) agreement_id with
  | Some agreement_to_archive =>
      if dict_truthy agreement_to_archive then
        let st := archive_agreement now_iso agreement_to_archive st in
        mk_store (without_id (agreements st) agreement_id) (archived st)
      else st
  | None => st
  end.

(** [restore_agreement] *)
Definition restore_agreement (now_iso agreement_id : pystr) (st : store) : store :=
  match find_by_id (archived st) agreement_id with
  | Some agreement_to_restore =>
      if dict_truthy agreement_to_restore then
        let agreement_to_restore :=
          if has_key agreement_to_restore (lit "archived_timestamp")
          then dict_del agreement_to_restore (lit "archived_timestamp")
          else agreement_to_restore in
        let agreement_to_restore :=
          dict_set agreement_to_restore (lit "restored_timestamp") (VStr now_iso) in
        mk_store (agreements st ++ [agreement_to_restore])
                 (without_id (archived st) agreement_id)
      else st
  | None => st
  end.

(** ** The normalisation pass of [dashboard] and [download_csv]

    The body of the loop that both routes run over the stored records:
    the record is updated key by key, and the first call that raises ends
    the pass. *)

(** [agreement[k] = f(agreement.get(k, ""))] *)
Definition update_with (f : pyval -> res pystr) (k : pystr) (agreement : dict)
  : res dict :=
  r <- f (get_or agreement k (VStr [])) ;;
  Ok (dict_set agreement k (VStr r)).

(** The legacy branch: the three fields are read off ["place_occupied"]
    when the record has this key and no area. *)
Definition from_place_occupied (agreement : dict) : res dict :=
  if has_key agreement (lit "place_occupied")
     && negb (truthy (get_or_none agreement (lit "area_sqft")))
  then
    let place := get_or agreement (lit "place_occupied") (VStr []) in
    area <- normalize_area_sqft place ;;
    let agreement := dict_set agreement (lit "area_sqft") (VStr area) in
    floor <- normalize_floor place ;;
    let agreement := dict_set agreement (lit "floor") (VStr floor) in
    building <- normalize_building place ;;
    Ok (dict_set agreement (lit "building") (VStr building))
  else Ok agreement.

Definition renormalize (now : datetime) (agreement : dict) : res dict :=
  alert_status <-
    calculate_alert_status now
      (get_or agreement (lit "agreement_expiry_date") (VStr [])) ;;
  let agreement := dict_set agreement (lit "alert_status") (VStr alert_status) in
  agreement <- from_place_occupied agreement ;;
  agreement <- update_with normalize_area_sqft (lit "area_sqft") agreement ;;
  agreement <- update_with normalize_floor (lit "floor") agreement ;;
  agreement <- update_with normalize_building (lit "building") agreement ;;
  agreement <- update_with normalize_period_of_rent (lit "period_of_rent") agreement ;;
  agreement <- update_with normalize_rent_amount (lit "rent_amount") agreement ;;
  agreement <- update_with normalize_maintenance_amount (lit "maintenance") agreement ;;
  agreement <- update_with normalize_rent_escalation (lit "rent_escalation") agreement ;;
  agreement <- update_with normalize_period_of_rent (lit "lock_in_period") agreement ;;
  let rental_period_value :=
    get_or agreement (lit "rental_period_greater_than_lock_in_period") (VStr []) in
  Ok (dict_set agreement (lit "rental_period_greater_than_lock_in_period")
        (VStr (normalize_boolean_flag rental_period_value))).

(** The keys that the pass writes. *)
Definition normalized_keys : list pystr :=
  [ lit "alert_status"; lit "area_sqft"; lit "floor"; lit "building";
    lit "period_of_rent"; lit "rent_amount"; lit "maintenance";
    lit "rent_escalation"; lit "lock_in_period";
    lit "rental_period_greater_than_lock_in_period" ].

(** The place of a status in the order of urgency. *)
Definition tier_rank (t : pystr) : nat :=
  if pystr_eqb t (lit "three_months") then 1
  else if pystr_eqb t (lit "two_months") then 2
  else if pystr_eqb t (lit "one_month") then 3
  else if pystr_eqb t (lit "expired") then 4
  else 0.

(** The text of a number: digits, then possibly a point and digits. *)
Definition is_number_text (r : pystr) : Prop :=
  exists a b,
    r = a ++ b /\ a <> [] /\ forallb is_digit a = true
    /\ (b = [] \/ exists f, b = "."%char :: f /\ forallb is_digit f = true).


(** The values on which [v.strip()] is not reached or has the method: a
    string, or a value that is false ([None], [False], [0], [0.0]). *)
Definition is_text_or_falsy (v : pyval) : bool :=
  match v with
  | VStr _ => true
  | _ => negb (truthy v)
  end.

(** ** The record that [extract_information_with_gpt4o] returns

    [data] is the object read off the reply of the model, [{}] when there
    is none; what follows is the rest of the function. *)

Definition extracted_keys : list pystr :=
  [ lit "tenant_name"; lit "area_sqft"; lit "floor"; lit "building";
    lit "period_of_rent"; lit "rent_amount"; lit "maintenance";
    lit "rent_escalation"; lit "agreement_start_date";
    lit "agreement_expiry_date"; lit "lock_in_period";
    lit "lock_in_period_end_date";
    lit "rental_period_greater_than_lock_in_period";
    lit "next_rent_escalation" ].

(** The loop that gives every missing key the value [""]. *)
Fixpoint fill_missing (keys : list pystr) (data : dict) : dict :=
  match keys with
  | [] => data
  | key :: rest =>
      fill_missing rest
        (if negb (has_key data key) then dict_set data key (VStr []) else data)
  end.

Definition normalize_extracted (now : datetime) (data : dict) : res dict :=
  let data := fill_missing extracted_keys data in
  data <- update_with normalize_area_sqft (lit "area_sqft") data ;;
  data <- update_with normalize_floor (lit "floor") data ;;
  data <- update_with normalize_building (lit "building") data ;;
  data <- update_with normalize_period_of_rent (lit "period_of_rent") data ;;
  data <- update_with normalize_rent_amount (lit "rent_amount") data ;;
  data <- update_with normalize_maintenance_amount (lit "maintenance") data ;;
  data <- update_with normalize_rent_escalation (lit "rent_escalation") data ;;
  data <- update_with normalize_period_of_rent (lit "lock_in_period") data ;;
  let rental_period_value :=
    get_or data (lit "rental_period_greater_than_lock_in_period") (VStr []) in
  let data :=
    dict_set data (lit "rental_period_greater_than_lock_in_period")
      (VStr (normalize_boolean_flag rental_period_value)) in
  let expiry_date := get_or data (lit "agreement_expiry_date") (VStr []) in
  alert_status <- calculate_alert_status now expiry_date ;;
  Ok (dict_set data (lit "alert_status") (VStr alert_status)).

(** What a normaliser reads of a value: [str(v)], or nothing when the
    value is false. *)
Definition text_of (v : pyval) : pystr := if truthy v then py_str v else [].

(** The test of the legacy branch of the pass. *)
Definition is_legacy (agreement : dict) : bool :=
  has_key agreement (lit "place_occupied")
  && negb (truthy (get_or_none agreement (lit "area_sqft"))).

(** A record with the ten values of the pass written into it. *)
Definition with_normalized
  (agreement : dict) (alert area floor building period rent maintenance
                      escalation lock_in flag : pystr) : dict :=
  let agreement := dict_set agreement (lit "alert_status") (VStr alert) in
  let agreement := dict_set agreement (lit "area_sqft") (VStr area) in
  let agreement := dict_set agreement (lit "floor") (VStr floor) in
  let agreement := dict_set agreement (lit "building") (VStr building) in
  let agreement := dict_set agreement (lit "period_of_rent") (VStr period) in
  let agreement := dict_set agreement (lit "rent_amount") (VStr rent) in
  let agreement := dict_set agreement (lit "maintenance") (VStr maintenance) in
  let agreement := dict_set agreement (lit "rent_escalation") (VStr escalation) in
  let agreement := dict_set agreement (lit "lock_in_period") (VStr lock_in) in
  dict_set agreement (lit "rental_period_greater_than_lock_in_period") (VStr flag).

(** ** Records for the examples *)

(** A record as it may be stored, the record that the pass of 10 March
    2025 makes of it, and the one that a second pass makes of that. *)
Definition example_agreement : dict :=
  [ (lit "id", VStr (lit "a1"));
    (lit "agreement_expiry_date", VStr (lit "2025-04-01"));
    (lit "period_of_rent", VStr (lit "2 years"));
    (lit "rent_amount", VStr (lit "Rs 72"));
    (lit "maintenance", VStr (lit "0.00001"));
    (lit "rent_escalation", VStr (lit "7% a year"));
    (lit "lock_in_period", VStr (lit "18 months"));
    (lit "rental_period_greater_than_lock_in_period", VStr (lit "yes")) ].

Definition example_normalized : dict :=
  [ (lit "id", VStr (lit "a1"));
    (lit "agreement_expiry_date", VStr (lit "2025-04-01"));
    (lit "period_of_rent", VStr (lit "24"));
    (lit "rent_amount", VStr (lit "72"));
    (lit "maintenance", VStr (lit "1e-05"));
    (lit "rent_escalation", VStr (lit "7%"));
    (lit "lock_in_period", VStr (lit "18"));
    (lit "rental_period_greater_than_lock_in_period", VStr (lit "True"));
    (lit "alert_status", VStr (lit "one_month"));
    (lit "area_sqft", VStr []);
    (lit "floor", VStr []);
    (lit "building", VStr []) ].

Definition example_normalized_twice : dict :=
  dict_set example_normalized (lit "maintenance") (VStr (lit "6")).

(** A record of the old format and what the pass makes of it. *)
Definition example_legacy : dict :=
  [ (lit "id", VStr (lit "a1"));
    (lit "place_occupied", VStr (lit "3200 sqft, 2nd floor of JP Classic"));
    (lit "floor", VStr (lit "third")) ].

Definition example_legacy_normalized : dict :=
  [ (lit "id", VStr (lit "a1"));
    (lit "place_occupied", VStr (lit "3200 sqft, 2nd floor of JP Classic"));
    (lit "floor", VStr (lit "2nd Floor"));
    (lit "alert_status", VStr []);
    (lit "area_sqft", VStr (lit "3200"));
    (lit "building", VStr (lit "JP Classic"));
    (lit "period_of_rent", VStr []);
    (lit "rent_amount", VStr []);
    (lit "maintenance", VStr []);
    (lit "rent_escalation", VStr []);
    (lit "lock_in_period", VStr []);
    (lit "rental_period_greater_than_lock_in_period", VStr (lit "False")) ].
(** * Properties *)

(** ** Characters *)

Ltac ascii_cases c := destruct c as [[] [] [] [] [] [] [] []].

Lemma digit_not_space (c : ascii) : is_digit c = true -> is_space c = false.
Proof. ascii_cases c; vm_compute; congruence. Qed.

Lemma digit_not_point (c : ascii) : is_digit c = true -> Ascii.eqb c "." = false.
Proof. ascii_cases c; vm_compute; congruence. Qed.

Lemma lower_char_digit (c : ascii) : is_digit c = true -> lower_char c = c.
Proof. ascii_cases c; vm_compute; congruence. Qed.

Lemma is_digit_lower (c : ascii) : is_digit (lower_char c) = is_digit c.
Proof. ascii_cases c; reflexivity. Qed.

Lemma is_space_lower (c : ascii) : is_space (lower_char c) = is_space c.
Proof. ascii_cases c; reflexivity. Qed.

Lemma lower_char_idem (c : ascii) : lower_char (lower_char c) = lower_char c.
Proof. ascii_cases c; reflexivity. Qed.

(** ** Strings *)

Lemma pystr_eqb_eq (a b : pystr) : pystr_eqb a b = true <-> a = b.
Proof.
  revert b; induction a as [|x a IH]; intros [|y b]; simpl; split;
    try congruence; try discriminate.
  - intros H. apply andb_true_iff in H as [H1 H2].
    apply Ascii.eqb_eq in H1. apply IH in H2. congruence.
  - intros H. injection H as -> ->. rewrite Ascii.eqb_refl.
    apply IH. reflexivity.
Qed.

Lemma pystr_eqb_nil (a : pystr) : pystr_eqb a [] = true <-> a = [].
Proof. apply pystr_eqb_eq. Qed.

Lemma pystr_eqb_nil_false (a : pystr) : a <> [] -> pystr_eqb a [] = false.
Proof. destruct a; [congruence | reflexivity]. Qed.

Lemma lower_idem (s : pystr) : lower (lower s) = lower s.
Proof.
  unfold lower. rewrite map_map. apply map_ext. apply lower_char_idem.
Qed.

Lemma lower_digits (s : pystr) : forallb is_digit s = true -> lower s = s.
Proof.
  induction s as [|c s IH]; simpl; [reflexivity|].
  intros H. apply andb_true_iff in H as [Hc Hs].
  rewrite lower_char_digit, IH; auto.
Qed.

(** [lstrip] and [rstrip] cut white space off, and nothing else. *)
Lemma lstrip_split (s : pystr) :
  exists w, s = w ++ lstrip s /\ forallb is_space w = true.
Proof.
  induction s as [|c s [w [E W]]]; simpl.
  - exists []. auto.
  - destruct (is_space c) eqn:Hc.
    + exists (c :: w). simpl. rewrite Hc, W. split; [congruence | reflexivity].
    + exists []. auto.
Qed.

Lemma rstrip_split (s : pystr) :
  exists w, s = rstrip s ++ w /\ forallb is_space w = true.
Proof.
  induction s as [|c s [w [E W]]]; simpl.
  - exists []. auto.
  - destruct (rstrip s) as [|r0 r] eqn:R.
    + destruct (is_space c) eqn:Hc.
      * exists (c :: w). simpl in *. rewrite Hc, W. subst s. auto.
      * exists w. simpl in *. subst s. auto.
    + exists w. split; [simpl; f_equal; exact E | assumption].
Qed.

Lemma strip_split (s : pystr) :
  exists w1 w2, s = w1 ++ strip s ++ w2
                /\ forallb is_space w1 = true /\ forallb is_space w2 = true.
Proof.
  destruct (lstrip_split s) as [w1 [E1 W1]].
  destruct (rstrip_split (lstrip s)) as [w2 [E2 W2]].
  exists w1, w2. unfold strip. rewrite <- E2. auto.
Qed.

Lemma lstrip_no_lead (s : pystr) : no_lead (lstrip s).
Proof.
  induction s as [|c s IH]; simpl; [exact I|].
  destruct (is_space c) eqn:Hc; [assumption | exact Hc].
Qed.

Lemma no_lead_lstrip (s : pystr) : no_lead s -> lstrip s = s.
Proof. destruct s as [|c s]; simpl; [reflexivity|]. intros ->. reflexivity. Qed.

Lemma rstrip_no_lead (s : pystr) : no_lead s -> no_lead (rstrip s).
Proof.
  destruct s as [|c s]; simpl; [auto|]. intros Hc.
  destruct (rstrip s); [rewrite Hc|]; exact Hc.
Qed.

Lemma rstrip_idem (s : pystr) : rstrip (rstrip s) = rstrip s.
Proof.
  induction s as [|c s IH]; simpl; [reflexivity|].
  destruct (rstrip s) as [|r0 r] eqn:R.
  - destruct (is_space c) eqn:Hc; simpl; [reflexivity | rewrite Hc; reflexivity].
  - change (rstrip (c :: r0 :: r)) with
      (match rstrip (r0 :: r) with
       | [] => if is_space c then [] else [c]
       | x :: y => c :: x :: y
       end).
    rewrite IH. reflexivity.
Qed.

Lemma strip_idem (s : pystr) : strip (strip s) = strip s.
Proof.
  unfold strip.
  rewrite (no_lead_lstrip (rstrip (lstrip s))).
  - apply rstrip_idem.
  - apply rstrip_no_lead, lstrip_no_lead.
Qed.

Lemma lstrip_spaces (w s : pystr) :
  forallb is_space w = true -> lstrip (w ++ s) = lstrip s.
Proof.
  induction w as [|c w IH]; simpl; [reflexivity|].
  intros H. apply andb_true_iff in H as [Hc Hw]. rewrite Hc. auto.
Qed.

Lemma rstrip_spaces (w : pystr) : forallb is_space w = true -> rstrip w = [].
Proof.
  induction w as [|c w IH]; simpl; [reflexivity|].
  intros H. apply andb_true_iff in H as [Hc Hw]. rewrite IH, Hc; auto.
Qed.

Lemma strip_spaces (w : pystr) : forallb is_space w = true -> strip w = [].
Proof.
  intros H. unfold strip.
  replace (lstrip w) with (lstrip (w ++ [])) by (rewrite app_nil_r; reflexivity).
  rewrite lstrip_spaces by assumption. reflexivity.
Qed.

Lemma strip_nil_spaces (s : pystr) : strip s = [] -> forallb is_space s = true.
Proof.
  intros H. destruct (strip_split s) as [w1 [w2 [E [W1 W2]]]].
  rewrite H in E. rewrite E. simpl. rewrite forallb_app, W1, W2. reflexivity.
Qed.

(** A text without white space at either end is left alone. *)
Lemma strip_no_space (s : pystr) :
  forallb (fun c => negb (is_space c)) s = true -> strip s = s.
Proof.
  intros H. unfold strip.
  assert (L : lstrip s = s).
  { destruct s as [|c s]; simpl in *; [reflexivity|].
    apply andb_true_iff in H as [Hc _].
    destruct (is_space c); [discriminate | reflexivity]. }
  rewrite L. clear L.
  induction s as [|c s IH]; simpl in *; [reflexivity|].
  apply andb_true_iff in H as [Hc Hs]. rewrite IH by assumption.
  destruct s; [|reflexivity].
  destruct (is_space c); [discriminate | reflexivity].
Qed.

(** ** Digits and numbers *)

Lemma space_not_digit (c : ascii) : is_space c = true -> is_digit c = false.
Proof.
  intros H. destruct (is_digit c) eqn:D; [|reflexivity].
  apply digit_not_space in D. congruence.
Qed.

Lemma space_not_point (c : ascii) : is_space c = true -> Ascii.eqb c "." = false.
Proof. ascii_cases c; vm_compute; congruence. Qed.

Lemma take_drop_digits (s : pystr) : take_digits s ++ drop_digits s = s.
Proof.
  induction s as [|c s IH]; simpl; [reflexivity|].
  destruct (is_digit c); simpl; [rewrite IH|]; reflexivity.
Qed.

Lemma take_digits_all (s : pystr) : forallb is_digit (take_digits s) = true.
Proof.
  induction s as [|c s IH]; simpl; [reflexivity|].
  destruct (is_digit c) eqn:D; simpl; [rewrite D; exact IH | reflexivity].
Qed.

Lemma drop_digits_head (s : pystr) :
  match drop_digits s with c :: _ => is_digit c = false | [] => True end.
Proof.
  induction s as [|c s IH]; simpl; [exact I|].
  destruct (is_digit c) eqn:D; [exact IH | exact D].
Qed.

Lemma take_digits_of_digits (a s : pystr) :
  forallb is_digit a = true ->
  take_digits (a ++ s) = a ++ take_digits s.
Proof.
  induction a as [|c a IH]; simpl; [reflexivity|].
  intros H. apply andb_true_iff in H as [Hc Ha]. rewrite Hc, IH; auto.
Qed.

Lemma drop_digits_of_digits (a s : pystr) :
  forallb is_digit a = true ->
  drop_digits (a ++ s) = drop_digits s.
Proof.
  induction a as [|c a IH]; simpl; [reflexivity|].
  intros H. apply andb_true_iff in H as [Hc Ha]. rewrite Hc, IH; auto.
Qed.

Lemma take_digits_no_digit (s : pystr) :
  match s with c :: _ => is_digit c = false | [] => True end ->
  take_digits s = [] /\ drop_digits s = s.
Proof. destruct s as [|c s]; simpl; [auto|]. intros ->. auto. Qed.

Lemma consumed_app (a b : pystr) : consumed (a ++ b) b = a.
Proof.
  unfold consumed. rewrite length_app.
  replace (length a + length b - length b)%nat with (length a) by lia.
  rewrite firstn_app, firstn_all.
  replace (length a - length a)%nat with 0%nat by lia.
  simpl. apply app_nil_r.
Qed.

Lemma take_drop_number (s : pystr) : take_number s ++ drop_number s = s.
Proof.
  unfold take_number, drop_number.
  rewrite <- app_assoc.
  transitivity (take_digits s ++ drop_digits s); [|apply take_drop_digits].
  f_equal.
  destruct (drop_digits s) as [|c u]; [reflexivity|].
  destruct (Ascii.eqb c "."); simpl; [rewrite take_drop_digits|]; reflexivity.
Qed.

(** Trailing white space does not change what is read at the start. *)
Lemma take_digits_spaces (a w : pystr) :
  forallb is_space w = true -> take_digits (a ++ w) = take_digits a.
Proof.
  intros W. induction a as [|c a IH]; simpl.
  - destruct w as [|x w]; simpl in *; [reflexivity|].
    apply andb_true_iff in W as [Hx _]. rewrite (space_not_digit _ Hx). reflexivity.
  - destruct (is_digit c); [rewrite IH|]; reflexivity.
Qed.

Lemma drop_digits_spaces (a w : pystr) :
  forallb is_space w = true -> drop_digits (a ++ w) = drop_digits a ++ w.
Proof.
  intros W. induction a as [|c a IH]; simpl.
  - destruct w as [|x w]; simpl in *; [reflexivity|].
    apply andb_true_iff in W as [Hx _]. rewrite (space_not_digit _ Hx). reflexivity.
  - destruct (is_digit c); [exact IH | reflexivity].
Qed.

Lemma take_number_spaces (a w : pystr) :
  forallb is_space w = true -> take_number (a ++ w) = take_number a.
Proof.
  intros W. unfold take_number.
  rewrite take_digits_spaces, drop_digits_spaces by assumption. f_equal.
  destruct (drop_digits a) as [|c u]; simpl.
  - destruct w as [|x w]; simpl in *; [reflexivity|].
    apply andb_true_iff in W as [Hx _]. rewrite (space_not_point _ Hx). reflexivity.
  - destruct (Ascii.eqb c "."); [rewrite take_digits_spaces by assumption|];
      reflexivity.
Qed.

Lemma first_integer_spaces (w1 a w2 : pystr) :
  forallb is_space w1 = true -> forallb is_space w2 = true ->
  first_integer (w1 ++ a ++ w2) = first_integer a.
Proof.
  intros W1 W2. induction w1 as [|x w1 IH]; simpl.
  - clear W1. induction a as [|c a IH]; simpl.
    + induction w2 as [|x w2 IH]; simpl in *; [reflexivity|].
      apply andb_true_iff in W2 as [Hx Hw]. rewrite (space_not_digit _ Hx). auto.
    + destruct (is_digit c); [|exact IH].
      f_equal. f_equal. apply take_digits_spaces. assumption.
  - simpl in W1. apply andb_true_iff in W1 as [Hx Hw].
    rewrite (space_not_digit _ Hx). auto.
Qed.

Lemma first_number_spaces (w1 a w2 : pystr) :
  forallb is_space w1 = true -> forallb is_space w2 = true ->
  first_number (w1 ++ a ++ w2) = first_number a.
Proof.
  intros W1 W2. induction w1 as [|x w1 IH]; simpl.
  - clear W1. induction a as [|c a IH]; simpl.
    + induction w2 as [|x w2 IH]; simpl in *; [reflexivity|].
      apply andb_true_iff in W2 as [Hx Hw]. rewrite (space_not_digit _ Hx). auto.
    + destruct (is_digit c); [|exact IH].
      f_equal. apply (take_number_spaces (c :: a)). assumption.
  - simpl in W1. apply andb_true_iff in W1 as [Hx Hw].
    rewrite (space_not_digit _ Hx). auto.
Qed.

Lemma first_integer_strip (s : pystr) : first_integer (strip s) = first_integer s.
Proof.
  destruct (strip_split s) as [w1 [w2 [E [W1 W2]]]].
  rewrite E at 2. symmetry. apply first_integer_spaces; assumption.
Qed.

Lemma first_number_strip (s : pystr) : first_number (strip s) = first_number s.
Proof.
  destruct (strip_split s) as [w1 [w2 [E [W1 W2]]]].
  rewrite E at 2. symmetry. apply first_number_spaces; assumption.
Qed.

Lemma take_digits_lower (s : pystr) : take_digits (lower s) = take_digits s.
Proof.
  induction s as [|c s IH]; simpl; [reflexivity|].
  rewrite is_digit_lower. destruct (is_digit c) eqn:D; [|reflexivity].
  rewrite (lower_char_digit _ D). f_equal. exact IH.
Qed.

Lemma first_integer_lower (s : pystr) : first_integer (lower s) = first_integer s.
Proof.
  induction s as [|c s IH]; simpl; [reflexivity|].
  rewrite is_digit_lower. destruct (is_digit c) eqn:D; [|exact IH].
  rewrite (lower_char_digit _ D). f_equal. f_equal. apply take_digits_lower.
Qed.

(** What the scanners return is made of digits, and of a point. *)
Lemma first_integer_digits (s d : pystr) :
  first_integer s = Some d -> d <> [] /\ forallb is_digit d = true.
Proof.
  induction s as [|c s IH]; simpl; [discriminate|].
  destruct (is_digit c) eqn:D; [|exact IH].
  intros H. injection H as <-. split; [discriminate|].
  simpl. rewrite D. apply take_digits_all.
Qed.

Lemma first_integer_none (s : pystr) :
  first_integer s = None <-> forallb (fun c => negb (is_digit c)) s = true.
Proof.
  induction s as [|c s IH]; simpl; [tauto|].
  destruct (is_digit c); simpl; [split; discriminate | exact IH].
Qed.

Lemma first_number_none (s : pystr) :
  first_number s = None <-> first_integer s = None.
Proof.
  induction s as [|c s IH]; simpl; [tauto|].
  destruct (is_digit c); [split; discriminate | exact IH].
Qed.

(** ** What the patterns match

    The first way the engine finds to match [\d*] reads all the digits
    there are; from this the matches of the three patterns follow. *)

Lemma star_matches_digit (s : pystr) :
  exists l, star_matches false Digit s = ([], drop_digits s) :: l.
Proof.
  induction s as [|c s [l IH]]; simpl.
  - exists []. reflexivity.
  - destruct (is_digit c).
    + rewrite IH. simpl. eexists. reflexivity.
    + exists []. reflexivity.
Qed.

(** The first match of a sequence, of an option and of a group, from the
    first matches of their parts. *)
Lemma rmatch_seq_first (i : bool) (r1 r2 : regex) (s s1 s2 : pystr)
      (g1 g2 : groups) (l1 l2 : list (groups * pystr)) :
  rmatch i r1 s = (g1, s1) :: l1 ->
  rmatch i r2 s1 = (g2, s2) :: l2 ->
  exists l, rmatch i (RSeq r1 r2) s = (g1 ++ g2, s2) :: l.
Proof.
  intros H1 H2. cbn [rmatch]. rewrite H1. cbn [flat_map fst snd].
  rewrite H2. cbn [map app fst snd]. eexists. reflexivity.
Qed.

Lemma rmatch_seq_none (i : bool) (r1 r2 : regex) (s : pystr) :
  rmatch i r1 s = [] -> rmatch i (RSeq r1 r2) s = [].
Proof. intros H. cbn [rmatch]. rewrite H. reflexivity. Qed.

Lemma rmatch_opt_first (i : bool) (r : regex) (s : pystr) :
  exists m l, rmatch i (ROpt r) s = m :: l
              /\ m = match rmatch i r s with x :: _ => x | [] => ([], s) end.
Proof.
  cbn [rmatch]. destruct (rmatch i r s) as [|x l]; cbn [app].
  - eexists. eexists. split; reflexivity.
  - eexists. eexists. split; reflexivity.
Qed.

Lemma rmatch_char (i : bool) (cs : charset) (s : pystr) :
  rmatch i (RChar cs) s =
  match s with
  | c :: t => if in_charset i cs c then [([], t)] else []
  | [] => []
  end.
Proof. reflexivity. Qed.

Lemma rmatch_integer (s : pystr) :
  match s with
  | c :: t =>
      if is_digit c
      then exists l, rmatch false re_integer s = ([], drop_digits s) :: l
      else rmatch false re_integer s = []
  | [] => rmatch false re_integer s = []
  end.
Proof.
  destruct s as [|c t]; simpl; [reflexivity|].
  destruct (is_digit c); [apply star_matches_digit | reflexivity].
Qed.

(** After the digits: a point and further digits, or nothing. *)
Lemma rmatch_fraction (u : pystr) :
  match u with c :: _ => is_digit c = false | [] => True end ->
  exists l,
    rmatch false (RSeq (ROpt (RChar (Lit "."))) (RStar Digit)) u =
    ([], match u with
         | c :: v => if Ascii.eqb c "." then drop_digits v else c :: v
         | [] => []
         end) :: l.
Proof.
  intros Hu.
  destruct (rmatch_opt_first false (RChar (Lit ".")) u) as [m [l [E M]]].
  rewrite rmatch_char in M.
  destruct u as [|c v].
  - subst m.
    assert (S : rmatch false (RStar Digit) [] = [([], [])]) by reflexivity.
    destruct (rmatch_seq_first _ _ _ _ _ _ _ _ _ _ E S) as [l0 H0]. exists l0. exact H0.
  - cbn [in_charset] in M. rewrite (Ascii.eqb_sym "." c) in M.
    destruct (Ascii.eqb c "."); subst m.
    + destruct (star_matches_digit v) as [l' S].
      change (star_matches false Digit v) with (rmatch false (RStar Digit) v) in S.
      destruct (rmatch_seq_first _ _ _ _ _ _ _ _ _ _ E S) as [l0 H0]. exists l0. exact H0.
    + assert (S : rmatch false (RStar Digit) (c :: v) = [([], c :: v)]).
      { cbn [rmatch star_matches in_charset]. rewrite Hu. reflexivity. }
      destruct (rmatch_seq_first _ _ _ _ _ _ _ _ _ _ E S) as [l0 H0]. exists l0. exact H0.
Qed.

Lemma rmatch_number (s : pystr) :
  match s with
  | c :: t =>
      if is_digit c
      then exists l, rmatch false re_number s = ([], drop_number s) :: l
      else rmatch false re_number s = []
  | [] => rmatch false re_number s = []
  end.
Proof.
  pose proof (rmatch_integer s) as H.
  destruct s as [|c t]; [reflexivity|].
  destruct (is_digit c) eqn:D.
  - destruct H as [l H].
    destruct (rmatch_fraction (drop_digits (c :: t)) (drop_digits_head (c :: t)))
      as [l' F].
    destruct (rmatch_seq_first _ _ _ _ _ _ _ _ _ _ H F) as [l0 H0]. exists l0. exact H0.
  - apply rmatch_seq_none. exact H.
Qed.

Lemma re_match_integer (s : pystr) :
  re_match false re_integer s =
  match s with
  | c :: _ =>
      if is_digit c
      then Some (mk_match (take_digits s) [] (drop_digits s))
      else None
  | [] => None
  end.
Proof.
  pose proof (rmatch_integer s) as H. unfold re_match.
  destruct s as [|c t]; [rewrite H; reflexivity|].
  destruct (is_digit c); [|rewrite H; reflexivity].
  destruct H as [l ->]. f_equal. f_equal.
  rewrite <- (take_drop_digits (c :: t)) at 1. apply consumed_app.
Qed.

Lemma re_match_number (s : pystr) :
  re_match false re_number s =
  match s with
  | c :: _ =>
      if is_digit c
      then Some (mk_match (take_number s) [] (drop_number s))
      else None
  | [] => None
  end.
Proof.
  pose proof (rmatch_number s) as H. unfold re_match.
  destruct s as [|c t]; [rewrite H; reflexivity|].
  destruct (is_digit c); [|rewrite H; reflexivity].
  destruct H as [l ->]. f_equal. f_equal.
  rewrite <- (take_drop_number (c :: t)) at 1. apply consumed_app.
Qed.

(** The first item of [re.findall(r'\d+', s)] is the first run of digits. *)
Lemma findall_integer_first (s : pystr) :
  hd_error (findall re_integer s) = first_integer s.
Proof.
  unfold findall. induction s as [|c s IH].
  - reflexivity.
  - cbn [findall_from first_integer]. rewrite re_match_integer.
    destruct (is_digit c); [reflexivity | exact IH].
Qed.

Lemma findall_number_first (s : pystr) :
  hd_error (findall re_number s) = first_number s.
Proof.
  unfold findall. induction s as [|c s IH].
  - reflexivity.
  - cbn [findall_from first_number]. rewrite re_match_number.
    destruct (is_digit c); [reflexivity | exact IH].
Qed.

Lemma re_match_percentage (s : pystr) :
  match s with
  | c :: _ =>
      if is_digit c
      then exists m, re_match false re_percentage s = Some m
                     /\ group (m_groups m) "1" = Some (take_number s)
      else re_match false re_percentage s = None
  | [] => re_match false re_percentage s = None
  end.
Proof.
  pose proof (rmatch_number s) as H. unfold re_match, re_percentage.
  assert (C : consumed s (drop_number s) = take_number s).
  { rewrite <- (take_drop_number s) at 1. apply consumed_app. }
  destruct s as [|c t]; [rewrite rmatch_seq_none; reflexivity|].
  destruct (is_digit c) eqn:D.
  - destruct H as [l H].
    assert (G : exists l', rmatch false (RGroup "1" re_number) (c :: t)
                = ([("1"%char, take_number (c :: t))], drop_number (c :: t)) :: l').
    { cbn [rmatch]. rewrite H. cbn [map fst snd]. rewrite C. eexists. reflexivity. }
    destruct G as [l' G].
    destruct (rmatch_opt_first false (RChar (Lit "%")) (drop_number (c :: t)))
      as [m [l'' [E M]]].
    destruct m as [g2 s2].
    destruct (rmatch_seq_first _ _ _ _ _ _ _ _ _ _ G E) as [l3 ->].
    eexists. split; [reflexivity|].
    cbn [m_groups app group]. rewrite Ascii.eqb_refl. reflexivity.
  - rewrite rmatch_seq_none; [reflexivity|].
    cbn [rmatch]. rewrite H. reflexivity.
Qed.

(** Group 1 of the first match of the percentage pattern is the first
    number of the text. *)
Lemma re_search_percentage (s : pystr) :
  match re_search re_percentage s with
  | Some m => group (m_groups m) "1" = first_number s /\ first_number s <> None
  | None => first_number s = None
  end.
Proof.
  induction s as [|c s IH].
  - reflexivity.
  - cbn [re_search first_number].
    pose proof (re_match_percentage (c :: s)) as H. cbv beta iota in H.
    destruct (is_digit c).
    + destruct H as [m [-> G]]. rewrite G. split; [reflexivity | discriminate].
    + rewrite H. exact IH.
Qed.

(** ** Decimal text of integers *)

Lemma uint_of_chars_of_uint (d : uint) : uint_of_chars (chars_of_uint d) = d.
Proof. induction d; simpl; try rewrite IHd; reflexivity. Qed.

Lemma chars_of_uint_digits (d : uint) : forallb is_digit (chars_of_uint d) = true.
Proof. induction d; simpl; try rewrite IHd; reflexivity. Qed.

Lemma nat_value_str_of_N (n : N) : nat_value (str_of_N n) = n.
Proof.
  unfold nat_value, str_of_N. rewrite uint_of_chars_of_uint.
  apply DecimalN.Unsigned.of_to.
Qed.

Lemma str_of_N_digits (n : N) : forallb is_digit (str_of_N n) = true.
Proof. apply chars_of_uint_digits. Qed.

Lemma str_of_N_not_nil (n : N) : str_of_N n <> [].
Proof.
  unfold str_of_N. intros H.
  assert (E : N.to_uint n = Nil).
  { rewrite <- (uint_of_chars_of_uint (N.to_uint n)), H. reflexivity. }
  pose proof (DecimalN.Unsigned.of_to n) as R. rewrite E in R.
  destruct n as [|p]; [discriminate E|].
  simpl in R. discriminate R.
Qed.

Lemma digits_no_space (s : pystr) :
  forallb is_digit s = true -> forallb (fun c => negb (is_space c)) s = true.
Proof.
  induction s as [|c s IH]; simpl; [reflexivity|].
  intros H. apply andb_true_iff in H as [Hc Hs].
  rewrite (digit_not_space _ Hc), IH; auto.
Qed.

(** [int] reads a run of digits as its value. *)
Lemma int_of_str_digits (d : pystr) :
  d <> [] -> forallb is_digit d = true ->
  int_of_str d = Ok (Z.of_N (nat_value d)).
Proof.
  intros N D. unfold int_of_str.
  rewrite (strip_no_space _ (digits_no_space _ D)), D.
  destruct d; [congruence | reflexivity].
Qed.

Lemma str_of_int_nonneg (z : Z) : (0 <= z)%Z -> str_of_int z = str_of_N (Z.to_N z).
Proof. destruct z; simpl; [reflexivity | reflexivity | lia]. Qed.

(** ** Key words *)

(** A key word without white space is found in a text exactly when it is
    found in the stripped text. *)
Lemma startswith_lead_space (x : ascii) (s kw : pystr) :
  is_space x = true ->
  kw <> [] -> forallb (fun c => negb (is_space c)) kw = true ->
  startswith (x :: s) kw = false.
Proof.
  intros Hx N K. destruct kw as [|k kw]; [congruence|].
  simpl in *. apply andb_true_iff in K as [Hk _].
  destruct (Ascii.eqb k x) eqn:E; [|reflexivity].
  apply Ascii.eqb_eq in E. subst k. rewrite Hx in Hk. discriminate.
Qed.

Lemma startswith_trail_spaces (a w kw : pystr) :
  forallb is_space w = true ->
  forallb (fun c => negb (is_space c)) kw = true ->
  startswith (a ++ w) kw = startswith a kw.
Proof.
  intros W. revert kw. induction a as [|c a IH]; intros kw K.
  - destruct kw as [|k kw]; [destruct w; reflexivity|].
    destruct w as [|x w]; [reflexivity|].
    simpl in W. apply andb_true_iff in W as [Hx _].
    apply startswith_lead_space; [assumption | discriminate | assumption].
  - destruct kw as [|k kw]; [reflexivity|].
    simpl in *. apply andb_true_iff in K as [_ K]. rewrite IH by assumption.
    reflexivity.
Qed.

Section KeyWord.

Variable kw : pystr.
Hypothesis kw_not_nil : kw <> [].
Hypothesis kw_no_space : forallb (fun c => negb (is_space c)) kw = true.

Lemma contains_spaces (w : pystr) :
  forallb is_space w = true -> contains kw w = false.
Proof.
  intros W. induction w as [|x w IH].
  - destruct kw; [congruence | reflexivity].
  - simpl in W. apply andb_true_iff in W as [Hx W].
    cbn [contains]. rewrite startswith_lead_space by assumption. auto.
Qed.

Lemma contains_strip_spaces (w1 a w2 : pystr) :
  forallb is_space w1 = true -> forallb is_space w2 = true ->
  contains kw (w1 ++ a ++ w2) = contains kw a.
Proof.
  intros W1 W2. induction w1 as [|x w1 IH].
  - clear W1. cbn [app]. induction a as [|c a IH].
    + cbn [app]. rewrite contains_spaces by assumption.
      destruct kw; [congruence | reflexivity].
    + change ((c :: a) ++ w2) with (c :: (a ++ w2)). cbn [contains].
      rewrite IH.
      change (c :: a ++ w2) with ((c :: a) ++ w2).
      rewrite startswith_trail_spaces by assumption. reflexivity.
  - simpl in W1. apply andb_true_iff in W1 as [Hx W1].
    change ((x :: w1) ++ a ++ w2) with (x :: (w1 ++ a ++ w2)). cbn [contains].
    rewrite startswith_lead_space by assumption. auto.
Qed.

Lemma contains_strip (s : pystr) : contains kw (strip s) = contains kw s.
Proof.
  destruct (strip_split s) as [w1 [w2 [E [W1 W2]]]].
  rewrite E at 2. symmetry. apply contains_strip_spaces; assumption.
Qed.

End KeyWord.

Lemma unit_factor_strip (s : pystr) : unit_factor (strip s) = unit_factor s.
Proof.
  unfold unit_factor.
  rewrite !contains_strip by (try discriminate; reflexivity). reflexivity.
Qed.

(** ** The normalisers on strings *)

Lemma is_blank_str (s : pystr) : is_blank (VStr s) = pystr_eqb (strip s) [].
Proof. destruct s; reflexivity. Qed.

Lemma is_blank_raw_str (s : pystr) :
  is_blank_raw (VStr s) = Ok (pystr_eqb (strip s) []).
Proof. destruct s; reflexivity. Qed.

Lemma blank_no_integer (s : pystr) :
  pystr_eqb (strip s) [] = true -> first_integer s = None.
Proof.
  intros H. apply pystr_eqb_nil in H.
  rewrite <- first_integer_strip, H. reflexivity.
Qed.

Lemma blank_no_number (s : pystr) :
  pystr_eqb (strip s) [] = true -> first_number s = None.
Proof. intros H. apply first_number_none, blank_no_integer, H. Qed.

Lemma hd_error_opt_text (l : list pystr) (o : option pystr) :
  hd_error l = o ->
  match l with [] => o = None | x :: _ => o = Some x end.
Proof. destruct l; simpl; congruence. Qed.

(** [normalize_area_sqft] returns the first run of digits. *)
Lemma normalize_area_sqft_str (s : pystr) :
  normalize_area_sqft (VStr s) = Ok (opt_text (first_integer s)).
Proof.
  unfold normalize_area_sqft. rewrite is_blank_str. cbn [py_str].
  destruct (pystr_eqb (strip s) []) eqn:B.
  - rewrite (blank_no_integer _ B). reflexivity.
  - pose proof (hd_error_opt_text _ _ (findall_integer_first (strip s))) as H.
    rewrite first_integer_strip in H.
    destruct (findall re_integer (strip s)); rewrite H; reflexivity.
Qed.

(** [normalize_rent_amount] returns the first number. *)
Lemma normalize_rent_amount_str (s : pystr) :
  normalize_rent_amount (VStr s) = Ok (opt_text (first_number s)).
Proof.
  unfold normalize_rent_amount. rewrite is_blank_str. cbn [py_str].
  destruct (pystr_eqb (strip s) []) eqn:B.
  - rewrite (blank_no_number _ B). reflexivity.
  - pose proof (hd_error_opt_text _ _ (findall_number_first (strip s))) as H.
    rewrite first_number_strip in H.
    destruct (findall re_number (strip s)); rewrite H; reflexivity.
Qed.

(** [normalize_rent_escalation] returns the first number and a percent
    sign. *)
Lemma normalize_rent_escalation_str (s : pystr) :
  normalize_rent_escalation (VStr s) =
  Ok (match first_number s with Some n => n ++ lit "%" | None => [] end).
Proof.
  unfold normalize_rent_escalation. rewrite is_blank_str. cbn [py_str].
  destruct (pystr_eqb (strip s) []) eqn:B.
  - rewrite (blank_no_number _ B). reflexivity.
  - pose proof (re_search_percentage (strip s)) as H.
    rewrite first_number_strip in H.
    destruct (re_search re_percentage (strip s)) as [m|].
    + destruct H as [G N]. rewrite G.
      destruct (first_number s); [reflexivity | congruence].
    + rewrite H. reflexivity.
Qed.

(** [normalize_period_of_rent] returns the period in months. *)
Lemma normalize_period_of_rent_str (s : pystr) :
  normalize_period_of_rent (VStr s) = Ok (period_in_months s).
Proof.
  unfold normalize_period_of_rent, period_in_months.
  rewrite is_blank_raw_str. cbn [bind py_str].
  destruct (pystr_eqb (strip s) []) eqn:B.
  - rewrite (blank_no_integer _ B). reflexivity.
  - pose proof (hd_error_opt_text _ _ (findall_integer_first (strip (lower s)))) as H.
    rewrite first_integer_strip, first_integer_lower in H.
    destruct (findall re_integer (strip (lower s))) as [|d l]; rewrite H;
      [reflexivity|].
    apply first_integer_digits in H as [N D].
    rewrite (int_of_str_digits _ N D). cbn [bind].
    f_equal. f_equal.
    rewrite !contains_strip by (try discriminate; reflexivity).
    unfold unit_factor.
    destruct (contains (lit "year") (lower s)); [reflexivity|].
    destruct (contains (lit "month") (lower s)); [lia|].
    destruct (contains (lit "quarter") (lower s)); [reflexivity | lia].
Qed.

(** ** Periods in months *)



(** ** Commas in amounts *)

(** A comma ends a number: of two runs of digits with a comma between
    them, the first is the first number. *)
Lemma first_number_comma (a b : pystr) :
  a <> [] -> forallb is_digit a = true ->
  first_number (a ++ lit "," ++ b) = Some a.
Proof.
  intros N D. destruct a as [|c a]; [congruence|].
  simpl in D. apply andb_true_iff in D as [Dc Da].
  change ((c :: a) ++ lit "," ++ b) with (c :: (a ++ lit "," ++ b)).
  cbn [first_number]. rewrite Dc. f_equal.
  unfold take_number.
  change (c :: a ++ lit "," ++ b) with ((c :: a) ++ lit "," ++ b).
  assert (D : forallb is_digit (c :: a) = true) by (simpl; rewrite Dc; exact Da).
  rewrite take_digits_of_digits, drop_digits_of_digits by exact D.
  cbn. rewrite !app_nil_r. reflexivity.
Qed.

(** C10: the number pattern stops at a comma, so that "1,200" is read as
    the two numbers 1 and 200: [normalize_rent_amount] returns "1", the
    first of them, and [normalize_maintenance_amount] returns "201", their
    sum. *)
Theorem comma_splits_amounts :
  findall re_number (lit "1,200") = [lit "1"; lit "200"]
  /\ normalize_rent_amount (VStr (lit "1,200")) = Ok (lit "1")
  /\ normalize_maintenance_amount (VStr (lit "1,200")) = Ok (lit "201").
Proof. repeat split; vm_compute; reflexivity. Qed.

(** ** Maintenance amounts *)

(** The example of the specification. *)
Lemma maintenance_example :
  normalize_maintenance_amount (VStr (lit "Rs.11 per sqft + Rs. 2 for canteen"))
  = Ok (lit "13").
Proof. vm_compute. reflexivity. Qed.

(** A text without digits has no amount. *)
Lemma maintenance_no_digit (s : pystr) :
  first_integer s = None -> normalize_maintenance_amount (VStr s) = Ok [].
Proof.
  intros H. unfold normalize_maintenance_amount. cbn [py_str].
  destruct (is_blank (VStr s)); [reflexivity|].
  pose proof (hd_error_opt_text _ _ (findall_number_first (strip s))) as F.
  rewrite first_number_strip in F. apply first_number_none in H.
  destruct (findall re_number (strip s)); [reflexivity | congruence].
Qed.

(** C4 at the input 10 ^ 309: the text is one number, the sum of the
    numbers is infinite, and [int(total)] raises [OverflowError], which
    nothing catches: [normalize_maintenance_amount] is not total. *)
Theorem maintenance_raises_overflow :
  forallb is_digit ten_pow_309 = true
  /\ normalize_maintenance_amount (VStr ten_pow_309) = Raise OverflowError.
Proof. split; vm_compute; reflexivity. Qed.

(** C7 at the input 10 ^ 309: the sum of the numbers of the text is
    [+inf], and no text is returned for it, neither an integer nor a
    decimal one. *)
Theorem maintenance_sum_infinite :
  findall re_number ten_pow_309 = [ten_pow_309]
  /\ sum_numbers [ten_pow_309] (NInt 0) = Ok (NFloat (S754_infinity false))
  /\ forall r : pystr, normalize_maintenance_amount (VStr ten_pow_309) <> Ok r.
Proof.
  split; [vm_compute; reflexivity|].
  split; [vm_compute; reflexivity|].
  intros r. replace (normalize_maintenance_amount (VStr ten_pow_309))
    with (@Raise pystr OverflowError) by (vm_compute; reflexivity).
  discriminate.
Qed.

(** C5 at the input "0.00001": the amount is returned as "1e-05", the
    [repr] of the float, and normalising "1e-05" returns "6". *)
Theorem maintenance_not_idempotent :
  normalize_maintenance_amount (VStr (lit "0.00001")) = Ok (lit "1e-05")
  /\ normalize_maintenance_amount (VStr (lit "1e-05")) = Ok (lit "6").
Proof. split; vm_compute; reflexivity. Qed.

(** ** Dates *)

Lemma days_before_year_bounds (y : Z) :
  (1 <= y <= 9999 -> 0 <= days_before_year y <= 365 * (y - 1) + 2424)%Z.
Proof.
  intros H. unfold days_before_year. cbv zeta.
  Z.div_mod_to_equations. lia.
Qed.

Lemma days_in_year (y m d : Z) :
  (1 <= m <= 12 -> 1 <= d <= days_in_month y m ->
   1 <= days_before_month y m + d <= if is_leap y then 366 else 365)%Z.
Proof.
  intros Hm Hd. unfold days_in_month, days_before_month in *.
  assert (M : (m = 1 \/ m = 2 \/ m = 3 \/ m = 4 \/ m = 5 \/ m = 6 \/ m = 7
               \/ m = 8 \/ m = 9 \/ m = 10 \/ m = 11 \/ m = 12)%Z) by lia.
  destruct (is_leap y);
    repeat (destruct M as [-> | M]); try subst m;
    cbv -[Z.add Z.le Z.lt] in *; lia.
Qed.

Lemma date_new_range (y m d : Z) (T : date) :
  date_new y m d = Ok T -> (1 <= toordinal T <= MAXORDINAL)%Z.
Proof.
  unfold date_new, MINYEAR, MAXYEAR, MAXORDINAL.
  destruct (_ && _) eqn:V; [|discriminate].
  intros H. injection H as <-. cbn [toordinal]. unfold ymd2ord.
  repeat (apply andb_true_iff in V as [V ?]).
  repeat match goal with
         | H : (_ <=? _)%Z = true |- _ => apply Z.leb_le in H
         end.
  pose proof (days_before_year_bounds y ltac:(lia)) as By.
  pose proof (days_in_year y m d ltac:(lia) ltac:(lia)) as Bd.
  split; [lia|].
  destruct (Z.eq_dec y 9999) as [-> | Ny].
  - change (is_leap 9999) with false in Bd. lia.
  - destruct (is_leap y); lia.
Qed.

Lemma date_sub_days_ok (T : date) (n : Z) :
  (n < toordinal T <= MAXORDINAL + n)%Z ->
  date_sub_days T n = Ok (mk_date (toordinal T - n)).
Proof.
  intros H. unfold date_sub_days. cbv zeta.
  replace (0 <? toordinal T - n)%Z with true by (symmetry; apply Z.ltb_lt; lia).
  replace (toordinal T - n <=? MAXORDINAL)%Z with true
    by (symmetry; apply Z.leb_le; lia).
  reflexivity.
Qed.

Lemma date_sub_days_overflow (T : date) (n : Z) :
  (toordinal T <= n)%Z -> date_sub_days T n = Raise OverflowError.
Proof.
  intros H. unfold date_sub_days. cbv zeta.
  replace (0 <? toordinal T - n)%Z with false by (symmetry; apply Z.ltb_ge; lia).
  reflexivity.
Qed.

Lemma bind_ok {A B : Type} (m : res A) (k : A -> res B) (b : B) :
  bind m k = Ok b -> exists a, m = Ok a /\ k a = Ok b.
Proof. destruct m as [a|e]; simpl; [eauto | discriminate]. Qed.

(** A date that [strptime] returns is a date of the calendar. *)
Lemma strptime_date_range (data fmt : pystr) (T : date) :
  strptime_date data fmt = Ok T -> (1 <= toordinal T <= MAXORDINAL)%Z.
Proof.
  unfold strptime_date.
  destruct (format_regex fmt) as [r|]; [|discriminate].
  destruct (re_match true r data) as [found|]; [|discriminate].
  destruct (m_rest found); [|discriminate].
  intros H.
  apply bind_ok in H as [year [_ H]].
  apply bind_ok in H as [month [_ H]].
  apply bind_ok in H as [day [_ H]].
  exact (date_new_range _ _ _ _ H).
Qed.

Lemma parse_date_range (formats : list pystr) (date_str : pystr) (T : date) :
  parse_date formats date_str = Ok (Some T) ->
  (1 <= toordinal T <= MAXORDINAL)%Z.
Proof.
  induction formats as [|fmt rest IH]; cbn [parse_date]; [discriminate|].
  destruct (strptime_date date_str fmt) as [d|e] eqn:P; cbn [bind try_except].
  - intros H. injection H as <-. exact (strptime_date_range _ _ _ P).
  - destruct (is_ValueError e); [exact IH | discriminate].
Qed.

Lemma expiry_of_blank (s : pystr) :
  pystr_eqb (strip s) [] = true -> expiry_of s = Ok None.
Proof.
  intros H. apply pystr_eqb_nil in H. unfold expiry_of. rewrite H.
  vm_compute. reflexivity.
Qed.

(** ** The alert classifier *)

(** Once the text is read as the date [T], the status is that of the chain
    of comparisons on the three dates before [T]; when [T] is among the
    first 90 days of the calendar these dates do not exist, the subtraction
    raises [OverflowError] and the handler returns [""]. *)
Lemma calculate_alert_status_parsed (now : datetime) (s : pystr) (T : date) :
  expiry_of s = Ok (Some T) ->
  calculate_alert_status now (VStr s) =
  if (toordinal T <=? 90)%Z then Ok []
  else Ok (branch_status
             (alert_branch (dt_date now)
                (mk_date (toordinal T - 90)) (mk_date (toordinal T - 60))
                (mk_date (toordinal T - 30)) T)).
Proof.
  intros P. unfold calculate_alert_status.
  rewrite is_blank_raw_str. cbn [bind].
  destruct (pystr_eqb (strip s) []) eqn:B.
  - rewrite (expiry_of_blank _ B) in P. discriminate.
  - cbn [method_strip bind]. unfold expiry_of in P. rewrite P. cbn [bind].
    pose proof (parse_date_range _ _ _ P) as R.
    destruct (toordinal T <=? 90)%Z eqn:E.
    + apply Z.leb_le in E. rewrite date_sub_days_overflow by lia. reflexivity.
    + apply Z.leb_gt in E.
      rewrite !date_sub_days_ok by lia. reflexivity.
Qed.

(** Whatever the text, the classifier returns one of the five values. *)
Lemma calculate_alert_status_total (now : datetime) (s : pystr) :
  exists t, calculate_alert_status now (VStr s) = Ok t /\ In t alert_tiers.
Proof.
  unfold calculate_alert_status. rewrite is_blank_raw_str. cbn [bind].
  destruct (pystr_eqb (strip s) []); [exists []; simpl; auto|].
  cbn [method_strip bind].
  destruct (parse_date date_formats (strip s)) as [[T|]|e]; cbn [bind try_except].
  - destruct (date_sub_days T 90) as [d3|e3]; cbn [bind try_except];
      [|exists []; simpl; auto].
    destruct (date_sub_days T 60) as [d2|e2]; cbn [bind try_except];
      [|exists []; simpl; auto].
    destruct (date_sub_days T 30) as [d1|e1]; cbn [bind try_except];
      [|exists []; simpl; auto].
    eexists. split; [reflexivity|].
    destruct (alert_branch (dt_date now) d3 d2 d1 T); simpl; auto 10.
  - exists []. simpl. auto.
  - exists []. simpl. auto.
Qed.

Lemma alert_branch_never_else (today d3 d2 d1 T : date) :
  alert_branch today d3 d2 d1 T <> BrElse.
Proof.
  unfold alert_branch, date_ltb, date_leb.
  destruct (toordinal today <? toordinal d3)%Z eqn:A; [discriminate|].
  apply Z.ltb_ge in A.
  replace (toordinal d3 <=? toordinal today)%Z with true
    by (symmetry; apply Z.leb_le; lia).
  destruct (toordinal today <? toordinal d2)%Z eqn:B; [discriminate|].
  apply Z.ltb_ge in B.
  replace (toordinal d2 <=? toordinal today)%Z with true
    by (symmetry; apply Z.leb_le; lia).
  destruct (toordinal today <? toordinal d1)%Z eqn:C; [discriminate|].
  apply Z.ltb_ge in C.
  replace (toordinal d1 <=? toordinal today)%Z with true
    by (symmetry; apply Z.leb_le; lia).
  destruct (toordinal today <? toordinal T)%Z eqn:D; [discriminate|].
  apply Z.ltb_ge in D.
  replace (toordinal T <=? toordinal today)%Z with true
    by (symmetry; apply Z.leb_le; lia).
  discriminate.
Qed.

Lemma interval_rules_one (today : date) (t : Z) :
  count_occ bool_dec
    (interval_rules today (mk_date (t - 90)) (mk_date (t - 60))
                    (mk_date (t - 30)) (mk_date t)) true = 1%nat.
Proof.
  unfold interval_rules, date_ltb, date_leb. cbn [toordinal].
  destruct (toordinal today <? t - 90)%Z eqn:A;
  destruct (t - 90 <=? toordinal today)%Z eqn:A';
  destruct (toordinal today <? t - 60)%Z eqn:B;
  destruct (t - 60 <=? toordinal today)%Z eqn:B';
  destruct (toordinal today <? t - 30)%Z eqn:C;
  destruct (t - 30 <=? toordinal today)%Z eqn:C';
  destruct (toordinal today <? t)%Z eqn:D;
  destruct (t <=? toordinal today)%Z eqn:D';
  try reflexivity; exfalso;
  repeat match goal with
         | H : (_ <? _)%Z = true |- _ => apply Z.ltb_lt in H
         | H : (_ <? _)%Z = false |- _ => apply Z.ltb_ge in H
         | H : (_ <=? _)%Z = true |- _ => apply Z.leb_le in H
         | H : (_ <=? _)%Z = false |- _ => apply Z.leb_gt in H
         end; lia.
Qed.

(** C1, as it is worded, fails: "0001-01-15" is read as a date [T], and on
    2025-06-01, which is after [T], the status is [""], not "expired". *)
Lemma alert_status_first_days_of_calendar :
  expiry_of (lit "0001-01-15") = Ok (Some (day_of 1 1 15))
  /\ date_leb (day_of 1 1 15) (day_of 2025 6 1) = true
  /\ calculate_alert_status (at_day (day_of 2025 6 1)) (VStr (lit "0001-01-15"))
     = Ok []
  /\ calculate_alert_status (at_day (day_of 2025 6 1)) (VStr (lit "0001-01-15"))
     <> Ok (lit "expired").
Proof.
  repeat split; try (vm_compute; reflexivity).
  vm_compute. discriminate.
Qed.

(** C1, amended: for every expiry date string that is read as a date [T] on
    or after 0001-04-01 (the 91st day of the calendar) and every [today],
    the status follows the five intervals: [today < T-90d] gives [""],
    [T-90d <= today < T-60d] gives "three_months", [T-60d <= today < T-30d]
    gives "two_months", [T-30d <= today < T] gives "one_month" and
    [today >= T] gives "expired", the days being calendar days. *)
Theorem calculate_alert_status_intervals
  (now : datetime) (s : pystr) (T : date)
  (HT : expiry_of s = Ok (Some T))
  (Hfirst : (91 <= toordinal T)%Z) :
  let today := toordinal (dt_date now) in
  let t := toordinal T in
  let status := calculate_alert_status now (VStr s) in
  ((today < t - 90)%Z -> status = Ok [])
  /\ ((t - 90 <= today < t - 60)%Z -> status = Ok (lit "three_months"))
  /\ ((t - 60 <= today < t - 30)%Z -> status = Ok (lit "two_months"))
  /\ ((t - 30 <= today < t)%Z -> status = Ok (lit "one_month"))
  /\ ((t <= today)%Z -> status = Ok (lit "expired")).
Proof.
  cbv zeta. rewrite (calculate_alert_status_parsed now s T HT).
  replace (toordinal T <=? 90)%Z with false by (symmetry; apply Z.leb_gt; lia).
  unfold alert_branch, date_ltb, date_leb. cbn [toordinal].
  repeat split; intros H;
    repeat match goal with
    | |- context [(?a <? ?b)%Z] =>
        first [ replace (a <? b)%Z with true by (symmetry; apply Z.ltb_lt; lia)
              | replace (a <? b)%Z with false by (symmetry; apply Z.ltb_ge; lia) ]
    | |- context [(?a <=? ?b)%Z] =>
        first [ replace (a <=? b)%Z with true by (symmetry; apply Z.leb_le; lia)
              | replace (a <=? b)%Z with false by (symmetry; apply Z.leb_gt; lia) ]
    end; reflexivity.
Qed.

(** The boundaries of the specification, with [T = 2025-06-01]: 2025-03-03
    is [T-90d] and gives "three_months", the day before gives [""], the eve
    of [T] gives "one_month" and [T] itself gives "expired". *)
Lemma calculate_alert_status_boundaries :
  let status today := calculate_alert_status (at_day today) (VStr (lit "2025-06-01")) in
  status (day_of 2025 3 3) = Ok (lit "three_months")
  /\ status (day_of 2025 3 2) = Ok []
  /\ status (day_of 2025 5 31) = Ok (lit "one_month")
  /\ status (day_of 2025 6 1) = Ok (lit "expired").
Proof.
  assert (HT : expiry_of (lit "2025-06-01") = Ok (Some (day_of 2025 6 1)))
    by (vm_compute; reflexivity).
  assert (Hfirst : (91 <= toordinal (day_of 2025 6 1))%Z)
    by (vm_compute; discriminate).
  cbv zeta. refine (conj _ (conj _ (conj _ _))).
  - apply (calculate_alert_status_intervals (at_day (day_of 2025 3 3)) _ _ HT Hfirst).
    vm_compute. split; [discriminate | reflexivity].
  - apply (calculate_alert_status_intervals (at_day (day_of 2025 3 2)) _ _ HT Hfirst).
    vm_compute. reflexivity.
  - apply (calculate_alert_status_intervals (at_day (day_of 2025 5 31)) _ _ HT Hfirst).
    vm_compute. split; [discriminate | reflexivity].
  - apply (calculate_alert_status_intervals (at_day (day_of 2025 6 1)) _ _ HT Hfirst).
    vm_compute. discriminate.
Defined.

(** C2: for every expiry date string and every [today] the classifier
    returns one value, which is one of [""], "three_months", "two_months",
    "one_month" and "expired"; of the five interval rules for a date [T]
    exactly one holds of any [today]; and the [else] that closes the chain
    of comparisons is never taken. *)
Theorem alert_partition :
  (forall (now : datetime) (s : pystr),
      exists t, calculate_alert_status now (VStr s) = Ok t /\ In t alert_tiers)
  /\ (forall (today : date) (t : Z),
         count_occ bool_dec
           (interval_rules today (mk_date (t - 90)) (mk_date (t - 60))
                           (mk_date (t - 30)) (mk_date t)) true = 1%nat)
  /\ (forall today d3 d2 d1 T : date, alert_branch today d3 d2 d1 T <> BrElse).
Proof.
  split; [exact calculate_alert_status_total|].
  split; [exact interval_rules_one | exact alert_branch_never_else].
Qed.





(** ** Arguments that are not strings *)

Lemma is_blank_truthy (v : pyval) :
  truthy v = true -> is_blank v = is_blank (VStr (py_str v)).
Proof.
  intros H. rewrite is_blank_str. unfold is_blank. rewrite H. reflexivity.
Qed.




Ltac split_ifs :=
  repeat match goal with
         | |- context [if ?b then _ else _] => destruct b
         end.


(** The other normalisers return a text for every argument. *)
Lemma normalize_rent_amount_returns (v : pyval) :
  exists r, normalize_rent_amount v = Ok r.
Proof.
  unfold normalize_rent_amount. destruct (is_blank v); [eauto|].
  destruct (findall re_number _); eauto.
Qed.

Lemma normalize_rent_escalation_returns (v : pyval) :
  exists r, normalize_rent_escalation v = Ok r.
Proof.
  unfold normalize_rent_escalation. destruct (is_blank v); [eauto|].
  destruct (re_search re_percentage _) as [m|]; [|eauto].
  destruct (group (m_groups m) "1"); eauto.
Qed.

Lemma normalize_area_sqft_returns (v : pyval) :
  exists r, normalize_area_sqft v = Ok r.
Proof.
  unfold normalize_area_sqft. destruct (is_blank v); [eauto|].
  destruct (findall re_integer _); eauto.
Qed.

Lemma normalize_floor_returns (v : pyval) :
  exists r, normalize_floor v = Ok r.
Proof. unfold normalize_floor. split_ifs; eauto. Qed.

Lemma normalize_building_returns (v : pyval) :
  exists r, normalize_building v = Ok r.
Proof. unfold normalize_building. split_ifs; eauto. Qed.




(** The integer 12 and the boolean [True] in the other normalisers. *)
Lemma other_normalizers_accept_12_and_True :
  normalize_rent_amount (VInt 12) = Ok (lit "12")
  /\ normalize_maintenance_amount (VInt 12) = Ok (lit "12")
  /\ normalize_rent_escalation (VInt 12) = Ok (lit "12%")
  /\ normalize_area_sqft (VInt 12) = Ok (lit "12")
  /\ normalize_floor (VInt 12) = Ok (lit "12")
  /\ normalize_building (VInt 12) = Ok (lit "12")
  /\ normalize_rent_amount (VBool true) = Ok []
  /\ normalize_maintenance_amount (VBool true) = Ok []
  /\ normalize_rent_escalation (VBool true) = Ok []
  /\ normalize_area_sqft (VBool true) = Ok []
  /\ normalize_floor (VBool true) = Ok (lit "True")
  /\ normalize_building (VBool true) = Ok (lit "True").
Proof. repeat split; vm_compute; reflexivity. Qed.

(** ** Idempotence

    Each normaliser but [normalize_maintenance_amount] returns, for a
    string, a text that it maps to itself. *)

Lemma take_digits_id (d : pystr) : forallb is_digit d = true -> take_digits d = d.
Proof.
  intros D. rewrite <- (app_nil_r d) at 1.
  rewrite take_digits_of_digits by assumption. apply app_nil_r.
Qed.

Lemma first_integer_of_digits (d : pystr) :
  d <> [] -> forallb is_digit d = true -> first_integer d = Some d.
Proof.
  intros N D. destruct d as [|c d]; [congruence|].
  cbn [first_integer]. pose proof D as D'. simpl in D'.
  apply andb_true_iff in D' as [-> _]. f_equal. apply take_digits_id, D.
Qed.

Lemma first_integer_idem (s d : pystr) :
  first_integer s = Some d -> first_integer d = Some d.
Proof.
  intros H. apply first_integer_digits in H as [N D].
  apply first_integer_of_digits; assumption.
Qed.

Lemma normalize_area_sqft_idempotent (s : pystr) :
  exists r, normalize_area_sqft (VStr s) = Ok r
            /\ normalize_area_sqft (VStr r) = Ok r.
Proof.
  exists (opt_text (first_integer s)).
  split; [apply normalize_area_sqft_str|].
  rewrite normalize_area_sqft_str.
  destruct (first_integer s) as [d|] eqn:F; cbn [opt_text]; [|reflexivity].
  rewrite (first_integer_idem _ _ F). reflexivity.
Qed.

(** A number is read again as itself, also in front of a character that
    is neither a digit nor a point. *)
Lemma take_number_stable (x rest : pystr) :
  ends_number rest -> take_number (take_number x ++ rest) = take_number x.
Proof.
  intros R. unfold take_number at 2 3.
  set (a := take_digits x).
  assert (A : forallb is_digit a = true) by apply take_digits_all.
  set (tail := match drop_digits x with
               | c :: u => if Ascii.eqb c "." then c :: take_digits u else []
               | [] => []
               end).
  assert (T : tail = [] \/ exists b, tail = "."%char :: b /\ forallb is_digit b = true).
  { unfold tail. destruct (drop_digits x) as [|c u]; [left; reflexivity|].
    destruct (Ascii.eqb c ".") eqn:E; [|left; reflexivity].
    right. apply Ascii.eqb_eq in E. subst c. eexists. split; [reflexivity|].
    apply take_digits_all. }
  unfold take_number. rewrite <- app_assoc.
  rewrite take_digits_of_digits, drop_digits_of_digits by assumption.
  destruct T as [-> | [b [-> B]]]; cbn [app].
  - destruct rest as [|c rest]; cbn [take_digits drop_digits].
    + rewrite ?app_nil_r. reflexivity.
    + destruct R as [-> ->]. rewrite ?app_nil_r. reflexivity.
  - cbn [take_digits drop_digits].
    change (is_digit ".") with false. cbv iota.
    change (Ascii.eqb "." ".") with true. cbv iota.
    rewrite take_digits_of_digits by assumption.
    destruct rest as [|c rest]; cbn [take_digits].
    + rewrite !app_nil_r. reflexivity.
    + destruct R as [-> _]. rewrite !app_nil_r. reflexivity.
Qed.

Lemma take_number_head (c : ascii) (t : pystr) :
  is_digit c = true -> exists n, take_number (c :: t) = c :: n.
Proof.
  intros D. unfold take_number. cbn [take_digits]. rewrite D.
  eexists. reflexivity.
Qed.

Lemma first_number_stable (s n rest : pystr) :
  first_number s = Some n -> ends_number rest ->
  first_number (n ++ rest) = Some n.
Proof.
  induction s as [|c s IH]; cbn [first_number]; [discriminate|].
  destruct (is_digit c) eqn:D; [|exact IH].
  intros H R. injection H as <-.
  destruct (take_number_head c s D) as [n E].
  rewrite E at 1. cbn [app first_number]. rewrite D. f_equal.
  change (c :: n ++ rest) with ((c :: n) ++ rest). rewrite <- E.
  apply take_number_stable, R.
Qed.

Lemma normalize_rent_amount_idempotent (s : pystr) :
  exists r, normalize_rent_amount (VStr s) = Ok r
            /\ normalize_rent_amount (VStr r) = Ok r.
Proof.
  exists (opt_text (first_number s)).
  split; [apply normalize_rent_amount_str|].
  rewrite normalize_rent_amount_str.
  destruct (first_number s) as [n|] eqn:F; cbn [opt_text]; [|reflexivity].
  pose proof (first_number_stable s n [] F I) as H.
  rewrite app_nil_r in H. rewrite H. reflexivity.
Qed.

Lemma normalize_rent_escalation_idempotent (s : pystr) :
  exists r, normalize_rent_escalation (VStr s) = Ok r
            /\ normalize_rent_escalation (VStr r) = Ok r.
Proof.
  eexists. split; [apply normalize_rent_escalation_str|].
  rewrite normalize_rent_escalation_str.
  destruct (first_number s) as [n|] eqn:F; [|reflexivity].
  rewrite (first_number_stable s n (lit "%") F); [reflexivity|].
  split; reflexivity.
Qed.

(** No key word of the units is found among digits. *)
Lemma contains_digits (kw d : pystr) :
  match kw with k :: _ => is_digit k = false | [] => False end ->
  forallb is_digit d = true -> contains kw d = false.
Proof.
  intros K. induction d as [|c d IH]; intros D.
  - destruct kw; [contradiction | reflexivity].
  - simpl in D. apply andb_true_iff in D as [Dc Dd].
    cbn [contains]. rewrite (IH Dd), orb_false_r.
    destruct kw as [|k kw]; [contradiction|]. cbn [startswith].
    destruct (Ascii.eqb k c) eqn:E; [|reflexivity].
    apply Ascii.eqb_eq in E. subst k. congruence.
Qed.

Lemma unit_factor_digits (d : pystr) :
  forallb is_digit d = true -> unit_factor d = 1%Z.
Proof.
  intros D. unfold unit_factor.
  rewrite !contains_digits by (assumption || reflexivity). reflexivity.
Qed.

Lemma unit_factor_nonneg (t : pystr) : (0 <= unit_factor t)%Z.
Proof. unfold unit_factor. split_ifs; lia. Qed.

Lemma period_in_months_idem (s : pystr) :
  period_in_months (period_in_months s) = period_in_months s.
Proof.
  unfold period_in_months at 2 3.
  destruct (first_integer s) as [d|]; [|reflexivity].
  set (m := (Z.of_N (nat_value d) * unit_factor (lower s))%Z).
  assert (M : (0 <= m)%Z).
  { unfold m. pose proof (unit_factor_nonneg (lower s)). lia. }
  rewrite (str_of_int_nonneg m M).
  unfold period_in_months.
  rewrite first_integer_of_digits
    by (apply str_of_N_not_nil || apply str_of_N_digits).
  rewrite lower_digits by apply str_of_N_digits.
  rewrite unit_factor_digits by apply str_of_N_digits.
  rewrite nat_value_str_of_N, Z.mul_1_r, Z2N.id by exact M.
  apply str_of_int_nonneg, M.
Qed.

Lemma normalize_period_of_rent_idempotent (s : pystr) :
  exists r, normalize_period_of_rent (VStr s) = Ok r
            /\ normalize_period_of_rent (VStr r) = Ok r.
Proof.
  exists (period_in_months s).
  rewrite !normalize_period_of_rent_str, period_in_months_idem. auto.
Qed.

Ltac split_ifs_eqn :=
  repeat match goal with
         | |- context [if ?b then _ else _] =>
             let E := fresh "E" in destruct b eqn:E
         end.

Ltac reuse_ifs :=
  repeat match goal with
         | H : ?b = false |- context [if ?b then _ else _] => rewrite H
         end.

Lemma normalize_floor_idempotent (s : pystr) :
  exists r, normalize_floor (VStr s) = Ok r /\ normalize_floor (VStr r) = Ok r.
Proof.
  unfold normalize_floor at 1. rewrite is_blank_str. cbn [py_str].
  destruct (pystr_eqb (strip s) []) eqn:B; [exists []; split; reflexivity|].
  split_ifs_eqn;
    try (eexists; split; [reflexivity | vm_compute; reflexivity]).
  exists (strip s). split; [reflexivity|].
  unfold normalize_floor. rewrite is_blank_str. cbn [py_str].
  rewrite strip_idem, B. reuse_ifs. reflexivity.
Qed.

Lemma normalize_building_idempotent (s : pystr) :
  exists r, normalize_building (VStr s) = Ok r
            /\ normalize_building (VStr r) = Ok r.
Proof.
  unfold normalize_building at 1. rewrite is_blank_str. cbn [py_str].
  destruct (pystr_eqb (strip s) []) eqn:B; [exists []; split; reflexivity|].
  split_ifs_eqn;
    try (eexists; split; [reflexivity | vm_compute; reflexivity]).
  exists (strip s). split; [reflexivity|].
  unfold normalize_building. rewrite is_blank_str. cbn [py_str].
  rewrite strip_idem, B. reuse_ifs. reflexivity.
Qed.

Lemma normalize_boolean_flag_idempotent (v : pyval) :
  normalize_boolean_flag (VStr (normalize_boolean_flag v))
  = normalize_boolean_flag v.
Proof.
  destruct v as [|b|z|f|s]; try reflexivity.
  - destruct b; reflexivity.
  - unfold normalize_boolean_flag at 2 3. split_ifs; reflexivity.
Qed.

(** ** The classifier on texts without a date *)

Lemma calculate_alert_status_blank (now : datetime) (s : pystr) :
  strip s = [] -> calculate_alert_status now (VStr s) = Ok [].
Proof.
  intros H. unfold calculate_alert_status. rewrite is_blank_raw_str, H.
  reflexivity.
Qed.

Lemma calculate_alert_status_unparsed (now : datetime) (s : pystr) :
  expiry_of s = Ok None -> calculate_alert_status now (VStr s) = Ok [].
Proof.
  intros H. unfold calculate_alert_status. rewrite is_blank_raw_str.
  cbn [bind]. destruct (pystr_eqb (strip s) []); [reflexivity|].
  cbn [method_strip bind]. unfold expiry_of in H. rewrite H. reflexivity.
Qed.

(** [strptime] raises nothing but [ValueError], so that the loop over the
    formats never raises. *)
Lemma int_of_str_raises (s : pystr) (e : exn) :
  int_of_str s = Raise e -> e = ValueError.
Proof.
  unfold int_of_str. destruct (strip s) as [|c t]; [congruence|].
  destruct (forallb is_digit (c :: t)); congruence.
Qed.

Lemma index_of_raises (x : pystr) (l : list pystr) (e : exn) :
  index_of x l = Raise e -> e = ValueError.
Proof.
  induction l as [|y l IH]; cbn [index_of]; [congruence|].
  destruct (pystr_eqb x y); [discriminate|].
  destruct (index_of x l); cbn [bind]; [discriminate|].
  intros H. injection H as <-. apply IH. reflexivity.
Qed.

Lemma bind_raises {A B : Type} (m : res A) (k : A -> res B) :
  (forall e, m = Raise e -> e = ValueError) ->
  (forall a e, k a = Raise e -> e = ValueError) ->
  forall e, bind m k = Raise e -> e = ValueError.
Proof.
  intros Hm Hk e. destruct m as [a|e']; cbn [bind].
  - apply Hk.
  - intros H. injection H as <-. apply Hm. reflexivity.
Qed.

Lemma date_new_raises (y m d : Z) (e : exn) :
  date_new y m d = Raise e -> e = ValueError.
Proof. unfold date_new. split_ifs; congruence. Qed.

Lemma strptime_date_raises (data fmt : pystr) (e : exn) :
  strptime_date data fmt = Raise e -> e = ValueError.
Proof.
  unfold strptime_date.
  destruct (format_regex fmt) as [r|]; [|congruence].
  destruct (re_match true r data) as [found|]; [|congruence].
  destruct (m_rest found); [|congruence].
  revert e. apply bind_raises.
  { destruct (group _ "Y"); [apply int_of_str_raises | discriminate]. }
  intros year. apply bind_raises.
  { destruct (group _ "m"); [apply int_of_str_raises|].
    destruct (group _ "B"); [apply index_of_raises|].
    destruct (group _ "b"); [apply index_of_raises | discriminate]. }
  intros month. apply bind_raises.
  { destruct (group _ "d"); [apply int_of_str_raises | discriminate]. }
  intros day. apply date_new_raises.
Qed.

Lemma parse_date_returns (formats : list pystr) (date_str : pystr) :
  exists o, parse_date formats date_str = Ok o.
Proof.
  induction formats as [|fmt rest IH]; cbn [parse_date]; [eauto|].
  destruct (strptime_date date_str fmt) as [d|e] eqn:P; cbn [bind try_except].
  - eauto.
  - rewrite (strptime_date_raises _ _ _ P). exact IH.
Qed.

(** The classifier and the normalisers other than
    [normalize_maintenance_amount] return a text for every string. *)
Lemma total_on_strings (now : datetime) (s : pystr) :
  (exists r, calculate_alert_status now (VStr s) = Ok r)
  /\ (exists r, normalize_period_of_rent (VStr s) = Ok r)
  /\ (exists r, normalize_rent_amount (VStr s) = Ok r)
  /\ (exists r, normalize_rent_escalation (VStr s) = Ok r)
  /\ (exists r, normalize_area_sqft (VStr s) = Ok r)
  /\ (exists r, normalize_floor (VStr s) = Ok r)
  /\ (exists r, normalize_building (VStr s) = Ok r).
Proof.
  repeat split.
  - destruct (calculate_alert_status_total now s) as [t [H _]]. eauto.
  - rewrite normalize_period_of_rent_str. eauto.
  - apply normalize_rent_amount_returns.
  - apply normalize_rent_escalation_returns.
  - apply normalize_area_sqft_returns.
  - apply normalize_floor_returns.
  - apply normalize_building_returns.
Qed.

(** ** The sum of the maintenance amounts

    On every string [normalize_maintenance_amount] is the rendering of the
    binary64 sum of the numbers of the text. *)

Lemma findall_number_from (s : pystr) (skip : nat) :
  findall_from re_number s skip = numbers_from s skip.
Proof.
  revert skip. induction s as [|c s IH]; intros [|k]; try reflexivity.
  - cbn [findall_from numbers_from]. rewrite re_match_number.
    destruct (is_digit c); cbn [m_text]; rewrite IH; reflexivity.
  - cbn [findall_from numbers_from]. apply IH.
Qed.

Lemma findall_number_all (s : pystr) : findall re_number s = all_numbers s.
Proof. apply findall_number_from. Qed.

Lemma split_point_digits (a rest : pystr) :
  forallb is_digit a = true ->
  split_point (a ++ rest) = (a ++ fst (split_point rest), snd (split_point rest)).
Proof.
  induction a as [|c a IH]; intros D.
  - cbn [app]. destruct (split_point rest). reflexivity.
  - simpl in D. apply andb_true_iff in D as [Dc Da].
    cbn [app split_point]. rewrite (digit_not_point _ Dc), (IH Da). reflexivity.
Qed.

Lemma split_point_all_digits (a : pystr) :
  forallb is_digit a = true -> split_point a = (a, None).
Proof.
  intros D. rewrite <- (app_nil_r a) at 1.
  rewrite split_point_digits by assumption. cbn. rewrite app_nil_r. reflexivity.
Qed.

(** [float] reads every number of the pattern. *)
Lemma float_of_str_take_number (c : ascii) (t : pystr) :
  is_digit c = true -> exists f, float_of_str (take_number (c :: t)) = Ok f.
Proof.
  intros D. unfold float_of_str, take_number.
  set (a := take_digits (c :: t)).
  assert (A : forallb is_digit a = true) by apply take_digits_all.
  assert (N : exists a', a = c :: a').
  { unfold a. cbn [take_digits]. rewrite D. eauto. }
  destruct N as [a' Ea]. clearbody a. subst a.
  rewrite split_point_digits by assumption.
  destruct (drop_digits (c :: t)) as [|x u]; [|destruct (Ascii.eqb x ".") eqn:E].
  - cbn [split_point fst snd]. rewrite !app_nil_r. cbn [app] in *.
    rewrite A. eauto.
  - apply Ascii.eqb_eq in E. subst x.
    change (split_point ("."%char :: take_digits u))
      with (@nil ascii, Some (take_digits u)).
    cbn [fst snd]. rewrite app_nil_r.
    assert (A' : forallb is_digit ((c :: a') ++ take_digits u) = true)
      by (rewrite forallb_app, A, take_digits_all; reflexivity).
    cbn [app] in *. rewrite A'. eauto.
  - cbn [split_point fst snd]. rewrite !app_nil_r. cbn [app] in *.
    rewrite A. eauto.
Qed.

Lemma numbers_from_parse (s : pystr) (skip : nat) :
  Forall (fun n => exists f, float_of_str n = Ok f) (numbers_from s skip).
Proof.
  revert skip. induction s as [|c s IH]; intros [|k]; cbn [numbers_from];
    try (constructor; fail); try apply IH.
  destruct (is_digit c) eqn:D; [|apply IH].
  constructor; [apply float_of_str_take_number, D | apply IH].
Qed.

Lemma sum_numbers_parsed (l : list pystr) (total : float) :
  Forall (fun n => exists f, float_of_str n = Ok f) l ->
  sum_numbers l (NFloat total) =
  Ok (NFloat (fold_left (fun t n => SFadd prec emax t (number_float n)) l total)).
Proof.
  intros H. revert total. induction H as [|n l [f F] _ IH]; intros total.
  - reflexivity.
  - cbn [sum_numbers fold_left]. unfold number_float at 2. rewrite F.
    cbn [bind try_except number_add_float]. apply IH.
Qed.

Lemma sum_numbers_from_zero (l : list pystr) :
  l <> [] ->
  Forall (fun n => exists f, float_of_str n = Ok f) l ->
  sum_numbers l (NInt 0) = Ok (NFloat (float_sum l)).
Proof.
  intros N H. destruct H as [|n l [f F] H]; [congruence|].
  cbn [sum_numbers]. rewrite F. cbn [bind try_except number_add_float].
  change (float_of_int 0) with (@Ok float (S754_zero false)).
  cbn [bind try_except].
  rewrite (sum_numbers_parsed _ _ H).
  unfold float_sum. cbn [fold_left]. unfold number_float at 3. rewrite F.
  reflexivity.
Qed.

(** [normalize_maintenance_amount] renders the sum of the numbers of the
    text; a text without numbers has no amount. *)
Lemma normalize_maintenance_amount_str (s : pystr) :
  normalize_maintenance_amount (VStr s) =
  match all_numbers (strip s) with
  | [] => Ok []
  | l => render_total (float_sum l)
  end.
Proof.
  unfold normalize_maintenance_amount. rewrite is_blank_str. cbn [py_str].
  rewrite findall_number_all.
  destruct (pystr_eqb (strip s) []) eqn:B.
  - apply pystr_eqb_nil in B. rewrite B. reflexivity.
  - pose proof (numbers_from_parse (strip s) 0) as P.
    fold (all_numbers (strip s)) in P.
    destruct (all_numbers (strip s)) as [|n l]; [reflexivity|].
    rewrite sum_numbers_from_zero by (assumption || discriminate).
    cbn [bind number_int]. unfold render_total.
    destruct (int_of_float (float_sum (n :: l))) as [i|e];
      cbn [bind number_eq_int number_str]; [|reflexivity].
    destruct (float_eq_int (float_sum (n :: l)) i); reflexivity.
Qed.

(** * Properties of the records, the stores and the settings *)

(** ** Records *)

Lemma pystr_eqb_refl (a : pystr) : pystr_eqb a a = true.
Proof. apply pystr_eqb_eq. reflexivity. Qed.

Lemma pystr_eqb_neq (a b : pystr) : a <> b -> pystr_eqb a b = false.
Proof.
  intros N. destruct (pystr_eqb a b) eqn:E; [|reflexivity].
  apply pystr_eqb_eq in E. contradiction.
Qed.

Lemma dict_get_set_same (d : dict) (k : pystr) (v : pyval) :
  dict_get (dict_set d k v) k = Some v.
Proof.
  induction d as [|[k' v'] d IH]; cbn [dict_set dict_get].
  - rewrite pystr_eqb_refl. reflexivity.
  - destruct (pystr_eqb k' k) eqn:E; cbn [dict_get]; rewrite E; auto.
Qed.

Lemma dict_get_set_other (d : dict) (k k' : pystr) (v : pyval) :
  k <> k' -> dict_get (dict_set d k v) k' = dict_get d k'.
Proof.
  intros N. induction d as [|[k0 v0] d IH]; cbn [dict_set dict_get].
  - rewrite pystr_eqb_neq by assumption. reflexivity.
  - destruct (pystr_eqb k0 k) eqn:E; cbn [dict_get].
    + apply pystr_eqb_eq in E. subst k0.
      rewrite pystr_eqb_neq by assumption. reflexivity.
    + rewrite IH. reflexivity.
Qed.

Lemma dict_del_set_absent (d : dict) (k : pystr) (v : pyval) :
  dict_get d k = None -> dict_del (dict_set d k v) k = d.
Proof.
  induction d as [|[k0 v0] d IH]; cbn [dict_set dict_get dict_del].
  - rewrite pystr_eqb_refl. reflexivity.
  - destruct (pystr_eqb k0 k) eqn:E; [discriminate|].
    intros H. cbn [dict_del]. rewrite E, IH by assumption. reflexivity.
Qed.

Lemma has_id_truthy (agreement_id : pystr) (a : dict) :
  has_id agreement_id a = true -> dict_truthy a = true.
Proof. destruct a; [discriminate | reflexivity]. Qed.

Lemma has_id_set_other (agreement_id k : pystr) (v : pyval) (a : dict) :
  k <> lit "id" ->
  has_id agreement_id (dict_set a k v) = has_id agreement_id a.
Proof.
  intros N. unfold has_id, get_or_none, get_or.
  rewrite dict_get_set_other by assumption. reflexivity.
Qed.

(** ** The agreements and the archive *)

Lemma find_by_id_some (l : list dict) (agreement_id : pystr) (a : dict) :
  find_by_id l agreement_id = Some a -> In a l /\ has_id agreement_id a = true.
Proof.
  induction l as [|x l IH]; cbn [find_by_id]; [discriminate|].
  destruct (has_id agreement_id x) eqn:E.
  - intros H. injection H as <-. split; [left; reflexivity | exact E].
  - intros H. destruct (IH H). split; [right|]; assumption.
Qed.

Lemma find_by_id_none (l : list dict) (agreement_id : pystr) :
  find_by_id l agreement_id = None <->
  Forall (fun a => has_id agreement_id a = false) l.
Proof.
  induction l as [|x l IH]; cbn [find_by_id].
  - split; [constructor | reflexivity].
  - destruct (has_id agreement_id x) eqn:E; split.
    + discriminate.
    + intros H. inversion H; congruence.
    + intros H. constructor; [exact E | apply IH, H].
    + intros H. inversion H. apply IH. assumption.
Qed.

Lemma without_id_none (l : list dict) (agreement_id : pystr) :
  Forall (fun a => has_id agreement_id a = false) l ->
  without_id l agreement_id = l.
Proof.
  induction 1 as [|x l Hx _ IH]; cbn [without_id filter]; [reflexivity|].
  rewrite Hx. cbn [negb]. unfold without_id in IH. rewrite IH. reflexivity.
Qed.

Lemma without_id_app (l l' : list dict) (agreement_id : pystr) :
  without_id (l ++ l') agreement_id
  = without_id l agreement_id ++ without_id l' agreement_id.
Proof. apply filter_app. Qed.

Lemma find_by_id_app_none (l l' : list dict) (agreement_id : pystr) :
  find_by_id l agreement_id = None ->
  find_by_id (l ++ l') agreement_id = find_by_id l' agreement_id.
Proof.
  induction l as [|x l IH]; cbn [find_by_id app]; [reflexivity|].
  destruct (has_id agreement_id x); [discriminate | exact IH].
Qed.

(** X1: whatever the store, [delete_agreement] leaves in the active list
    exactly the records that do not have the id, in their order. *)
Theorem delete_agreement_active (now_iso agreement_id : pystr) (st : store) :
  agreements (delete_agreement now_iso agreement_id st)
  = without_id (agreements st) agreement_id.
Proof.
  unfold delete_agreement.
  destruct (find_by_id (agreements st) agreement_id) as [a|] eqn:F.
  - apply find_by_id_some in F as [_ H].
    rewrite (has_id_truthy _ _ H). reflexivity.
  - symmetry. apply without_id_none, find_by_id_none, F.
Qed.

(** The number of records with an id. *)
Lemma length_without_id (l : list dict) (agreement_id : pystr) :
  (length (without_id l agreement_id)
   + length (filter (has_id agreement_id) l) = length l)%nat.
Proof.
  induction l as [|x l IH]; cbn [without_id filter]; [reflexivity|].
  destruct (has_id agreement_id x); cbn [negb length]; unfold without_id in IH; lia.
Qed.

(** X2: [delete_agreement] archives one record and removes from the active
    list every record with the id: with [n] records of that id among the
    active ones, the two lists together lose [n - 1] records (none when
    the id is that of one record, and nothing changes when [n = 0]). *)
Theorem delete_agreement_count (now_iso agreement_id : pystr) (st : store) :
  let st' := delete_agreement now_iso agreement_id st in
  let n := length (filter (has_id agreement_id) (agreements st)) in
  (length (agreements st') + length (archived st') + n
   = length (agreements st) + length (archived st) + Nat.min n 1)%nat.
Proof.
  cbv zeta. rewrite delete_agreement_active.
  pose proof (length_without_id (agreements st) agreement_id) as L.
  unfold delete_agreement.
  destruct (find_by_id (agreements st) agreement_id) as [a|] eqn:F.
  - pose proof F as F'. apply find_by_id_some in F' as [I H].
    rewrite (has_id_truthy _ _ H). cbn [archive_agreement archived agreements].
    rewrite length_app. cbn [length].
    assert (1 <= length (filter (has_id agreement_id) (agreements st)))%nat.
    { assert (In a (filter (has_id agreement_id) (agreements st)))
        by (apply filter_In; auto).
      destruct (filter (has_id agreement_id) (agreements st));
        [contradiction | cbn; lia]. }
    lia.
  - apply find_by_id_none in F.
    assert (E : filter (has_id agreement_id) (agreements st) = []).
    { clear L. induction F as [|x l Hx _ IH]; cbn [filter]; [reflexivity|].
      rewrite Hx. exact IH. }
    rewrite E in *. cbn [length] in *. lia.
Qed.

(** X3: a record that is deleted and then restored is back among the
    active ones, at the end of the list, as it was but for the key
    ["restored_timestamp"]; the archive is what it was.  This holds when no
    archived record has the id and the record has no ["archived_timestamp"]
    of its own. *)
Theorem delete_then_restore
  (now1 now2 agreement_id : pystr) (st : store) (a : dict)
  (Hfound : find_by_id (agreements st) agreement_id = Some a)
  (Hfresh : find_by_id (archived st) agreement_id = None)
  (Hplain : has_key a (lit "archived_timestamp") = false) :
  restore_agreement now2 agreement_id (delete_agreement now1 agreement_id st)
  = mk_store
      (without_id (agreements st) agreement_id
       ++ [dict_set a (lit "restored_timestamp") (VStr now2)])
      (archived st).
Proof.
  pose proof (find_by_id_some _ _ _ Hfound) as [_ Hid].
  unfold delete_agreement. rewrite Hfound, (has_id_truthy _ _ Hid).
  cbn [archive_agreement agreements archived].
  set (a' := dict_set a (lit "archived_timestamp") (VStr now1)).
  assert (Hid' : has_id agreement_id a' = true).
  { unfold a'. rewrite has_id_set_other by discriminate. exact Hid. }
  unfold restore_agreement. cbn [agreements archived].
  rewrite (find_by_id_app_none _ _ _ Hfresh). cbn [find_by_id].
  rewrite Hid', (has_id_truthy _ _ Hid').
  assert (K : has_key a' (lit "archived_timestamp") = true).
  { unfold has_key, a'. rewrite dict_get_set_same. reflexivity. }
  rewrite K.
  assert (D : dict_del a' (lit "archived_timestamp") = a).
  { unfold a'. apply dict_del_set_absent. unfold has_key in Hplain.
    destruct (dict_get a (lit "archived_timestamp")); [discriminate | reflexivity]. }
  rewrite D. f_equal.
  rewrite without_id_app.
  rewrite (without_id_none (archived st)) by (apply find_by_id_none, Hfresh).
  cbn [without_id filter]. rewrite Hid'. cbn [negb]. apply app_nil_r.
Qed.

Lemma delete_then_restore_example :
  restore_agreement (lit "2025-02-01T10:00:00") (lit "a1")
    (delete_agreement (lit "2025-01-01T09:00:00") (lit "a1")
       (mk_store [ [(lit "id", VStr (lit "a1")); (lit "tenant_name", VStr (lit "Asha"))];
                   [(lit "id", VStr (lit "b2"))] ]
                 [ [(lit "id", VStr (lit "c3"))] ]))
  = mk_store
      (without_id [ [(lit "id", VStr (lit "a1")); (lit "tenant_name", VStr (lit "Asha"))];
                    [(lit "id", VStr (lit "b2"))] ] (lit "a1")
       ++ [dict_set [(lit "id", VStr (lit "a1")); (lit "tenant_name", VStr (lit "Asha"))]
             (lit "restored_timestamp") (VStr (lit "2025-02-01T10:00:00"))])
      [ [(lit "id", VStr (lit "c3"))] ].
Proof.
  apply (delete_then_restore (lit "2025-01-01T09:00:00") (lit "2025-02-01T10:00:00")
           (lit "a1")
           (mk_store [ [(lit "id", VStr (lit "a1")); (lit "tenant_name", VStr (lit "Asha"))];
                       [(lit "id", VStr (lit "b2"))] ]
                     [ [(lit "id", VStr (lit "c3"))] ])
           [(lit "id", VStr (lit "a1")); (lit "tenant_name", VStr (lit "Asha"))]);
    reflexivity.
Defined.

(** ** Uploads *)

Lemma contains_char (c : ascii) (s : pystr) :
  contains [c] s = existsb (Ascii.eqb c) s.
Proof.
  induction s as [|x s IH]; cbn [contains startswith existsb]; [reflexivity|].
  rewrite IH. destruct (Ascii.eqb c x); [|reflexivity].
  destruct s; reflexivity.
Qed.

Lemma rsplit_last_none (sep : ascii) (s : pystr) :
  rsplit_last sep s = None <-> existsb (Ascii.eqb sep) s = false.
Proof.
  induction s as [|c s IH]; cbn [rsplit_last existsb]; [tauto|].
  rewrite (Ascii.eqb_sym sep c).
  destruct (rsplit_last sep s) as [[a b]|].
  - split; [discriminate|]. intros H. apply orb_false_iff in H as [_ H].
    apply IH in H. discriminate.
  - destruct (Ascii.eqb c sep); cbn [orb]; [split; discriminate|].
    split; intros _; [apply IH|]; reflexivity.
Qed.

Lemma rsplit_last_some (sep : ascii) (s a b : pystr) :
  rsplit_last sep s = Some (a, b) <->
  s = a ++ sep :: b /\ existsb (Ascii.eqb sep) b = false.
Proof.
  revert a. induction s as [|c s IH]; intros a; cbn [rsplit_last].
  - split; [discriminate|]. intros [H _]. destruct a; discriminate.
  - destruct (rsplit_last sep s) as [[a' b']|] eqn:R.
    + split.
      * intros H. injection H as <- <-.
        destruct (proj1 (IH a') eq_refl) as [-> N]. split; [reflexivity | exact N].
      * intros [E N]. destruct a as [|x a].
        -- cbn [app] in E. injection E as -> ->.
           apply rsplit_last_none in N. congruence.
        -- cbn [app] in E. injection E as -> E.
           assert (H : Some (a', b') = Some (a, b)) by (apply IH; auto).
           injection H as -> ->. reflexivity.
    + pose proof (proj1 (rsplit_last_none sep s) R) as N.
      destruct (Ascii.eqb c sep) eqn:C.
      * apply Ascii.eqb_eq in C. subst c. split.
        -- intros H. injection H as <- <-. auto.
        -- intros [E N']. destruct a as [|x a].
           ++ cbn [app] in E. injection E as ->. reflexivity.
           ++ cbn [app] in E. injection E as -> E. rewrite E in N.
              rewrite existsb_app in N. cbn [existsb] in N.
              rewrite Ascii.eqb_refl in N. cbn [orb] in N.
              rewrite orb_true_r in N. discriminate.
      * split; [discriminate|]. intros [E N']. destruct a as [|x a].
        -- cbn [app] in E. injection E as -> _.
           rewrite Ascii.eqb_refl in C. discriminate.
        -- cbn [app] in E. injection E as -> E. rewrite E in N.
           rewrite existsb_app in N. cbn [existsb] in N.
           rewrite Ascii.eqb_refl in N. cbn [orb] in N.
           rewrite orb_true_r in N. discriminate.
Qed.

(** X4: [allowed_file] never fails on indexing, and it accepts a name
    exactly when the name is [stem.ext] with no point in [ext] and [ext]
    equal to "pdf" up to case: the text after the last point decides. *)
Theorem allowed_file_last_extension (filename : pystr) :
  allowed_file filename <> None
  /\ (allowed_file filename = Some true <->
      exists stem ext,
        filename = stem ++ lit "." ++ ext
        /\ contains (lit ".") ext = false
        /\ lower ext = lit "pdf").
Proof.
  unfold allowed_file, rsplit1.
  change (lit ".") with ["."%char]. rewrite contains_char.
  destruct (existsb (Ascii.eqb ".") filename) eqn:D.
  - destruct (rsplit_last "." filename) as [[a b]|] eqn:R.
    + cbn [nth_error]. split; [discriminate|].
      apply rsplit_last_some in R as [E N].
      unfold ALLOWED_EXTENSIONS, in_list. cbn [existsb]. rewrite orb_false_r.
      split.
      * intros H. injection H as H. apply pystr_eqb_eq in H.
        exists a, b. rewrite contains_char. auto.
      * intros [stem [ext [E' [N' L]]]]. rewrite contains_char in N'.
        assert (H : rsplit_last "." filename = Some (stem, ext))
          by (apply rsplit_last_some; auto).
        assert (H' : rsplit_last "." filename = Some (a, b))
          by (apply rsplit_last_some; auto).
        rewrite H in H'. injection H' as <- <-.
        rewrite L. reflexivity.
    + apply rsplit_last_none in R. congruence.
  - split; [discriminate|]. split; [discriminate|].
    intros [stem [ext [E _]]]. rewrite E in D. cbn [app] in D.
    rewrite existsb_app in D. cbn [existsb] in D.
    rewrite orb_true_r in D. discriminate.
Qed.

(** ** White space and case *)

Lemma lstrip_lower (s : pystr) : lstrip (lower s) = lower (lstrip s).
Proof.
  induction s as [|c s IH]; cbn [lower map lstrip]; [reflexivity|].
  rewrite is_space_lower. destruct (is_space c); [exact IH | reflexivity].
Qed.

Lemma rstrip_lower (s : pystr) : rstrip (lower s) = lower (rstrip s).
Proof.
  induction s as [|c s IH]; [reflexivity|].
  change (lower (c :: s)) with (lower_char c :: lower s).
  cbn [rstrip]. rewrite IH.
  destruct (rstrip s) as [|r0 r]; cbn [lower map].
  - rewrite is_space_lower. destruct (is_space c); reflexivity.
  - reflexivity.
Qed.

Lemma strip_lower (s : pystr) : strip (lower s) = lower (strip s).
Proof. unfold strip. rewrite lstrip_lower, rstrip_lower. reflexivity. Qed.

Lemma rstrip_app_spaces (a w : pystr) :
  forallb is_space w = true -> rstrip (a ++ w) = rstrip a.
Proof.
  intros W. induction a as [|c a IH]; cbn [app rstrip].
  - apply rstrip_spaces, W.
  - rewrite IH. reflexivity.
Qed.

Lemma lstrip_app_spaces (s w : pystr) :
  forallb is_space w = true ->
  exists w', lstrip (s ++ w) = lstrip s ++ w' /\ forallb is_space w' = true.
Proof.
  intros W. induction s as [|c s [w' [E W']]]; cbn [app lstrip].
  - exists []. split; [|reflexivity].
    rewrite <- (app_nil_r w). rewrite lstrip_spaces by assumption. reflexivity.
  - destruct (is_space c).
    + exists w'. auto.
    + exists w. auto.
Qed.

(** White space around a text does not change what [strip] returns. *)
Lemma strip_pad (w1 s w2 : pystr) :
  forallb is_space w1 = true -> forallb is_space w2 = true ->
  strip (w1 ++ s ++ w2) = strip s.
Proof.
  intros W1 W2. unfold strip. rewrite lstrip_spaces by assumption.
  destruct (lstrip_app_spaces s w2 W2) as [w' [-> W']].
  apply rstrip_app_spaces, W'.
Qed.

(** What [strip] returns does not end with white space. *)
Lemma rstrip_last (s x : pystr) (c : ascii) :
  rstrip s = x ++ [c] -> is_space c = false.
Proof.
  revert x. induction s as [|c0 s IH]; intros x; cbn [rstrip].
  - destruct x; discriminate.
  - destruct (rstrip s) as [|r0 r] eqn:R.
    + destruct (is_space c0) eqn:S; [destruct x; discriminate|].
      intros H. destruct x as [|x0 [|x1 x]]; try discriminate.
      injection H as ->. exact S.
    + intros H. destruct x as [|x0 x]; [discriminate|].
      injection H as _ H. exact (IH x H).
Qed.

(** ** Tenants and their Gmail addresses *)

Lemma find_tenant_gmail_step (tenant_name : pyval) (p : dict) (rest : list dict) :
  find_tenant_gmail tenant_name (p :: rest) =
  (m <- name_matches tenant_name p ;;
   if m then Ok (get_or p (lit "gmail_address") (VStr []))
   else find_tenant_gmail tenant_name rest).
Proof.
  cbn [find_tenant_gmail]. unfold name_matches.
  destruct (method_strip (get_or p (lit "tenant_name") (VStr []))); cbn [bind];
    [|reflexivity].
  destruct (method_strip tenant_name); reflexivity.
Qed.

(** X5: when [find_tenant_gmail] returns, either no pair has the tenant's
    name and the result is [None], or the result is the address of the
    first pair that has it: an address of another tenant is never
    returned. *)
Theorem find_tenant_gmail_first_match
  (tenant_name : pyval) (pairs : list dict) (v : pyval)
  (Hreturns : find_tenant_gmail tenant_name pairs = Ok v) :
  (Forall (fun p => name_matches tenant_name p = Ok false) pairs /\ v = VNone)
  \/ (exists before p after,
         pairs = before ++ p :: after
         /\ Forall (fun q => name_matches tenant_name q = Ok false) before
         /\ name_matches tenant_name p = Ok true
         /\ v = get_or p (lit "gmail_address") (VStr [])).
Proof.
  revert Hreturns. induction pairs as [|p rest IH].
  - cbn. intros H. injection H as <-. left. auto.
  - rewrite find_tenant_gmail_step.
    destruct (name_matches tenant_name p) as [[|]|e] eqn:M; cbn [bind];
      [| |discriminate].
    + intros H. injection H as <-. right.
      exists [], p, rest. repeat split; auto.
    + intros H. destruct (IH H) as [[F ->] | [before [q [after [-> [F [Mq ->]]]]]]].
      * left. split; [constructor; assumption | reflexivity].
      * right. exists (p :: before), q, after.
        repeat split; auto.
Qed.

Lemma find_tenant_gmail_first_match_example :
  find_tenant_gmail (VStr (lit "Acme"))
    [ [(lit "tenant_name", VStr (lit "Zenith")); (lit "gmail_address", VStr (lit "z@gmail.com"))];
      [(lit "tenant_name", VStr (lit " ACME ")); (lit "gmail_address", VStr (lit "a@gmail.com"))] ]
  = Ok (VStr (lit "a@gmail.com"))
  /\ exists before p after,
       [ [(lit "tenant_name", VStr (lit "Zenith")); (lit "gmail_address", VStr (lit "z@gmail.com"))];
         [(lit "tenant_name", VStr (lit " ACME ")); (lit "gmail_address", VStr (lit "a@gmail.com"))] ]
       = before ++ p :: after
       /\ name_matches (VStr (lit "Acme")) p = Ok true.
Proof.
  assert (H : find_tenant_gmail (VStr (lit "Acme"))
    [ [(lit "tenant_name", VStr (lit "Zenith")); (lit "gmail_address", VStr (lit "z@gmail.com"))];
      [(lit "tenant_name", VStr (lit " ACME ")); (lit "gmail_address", VStr (lit "a@gmail.com"))] ]
    = Ok (VStr (lit "a@gmail.com"))) by reflexivity.
  split; [exact H|].
  destruct (find_tenant_gmail_first_match _ _ _ H)
    as [[_ E] | [before [p [after [E [_ [M _]]]]]]].
  - discriminate E.
  - exists before, p, after. auto.
Defined.

(** X6: the tenant is looked up without regard to case and to white space
    around the name: two names that differ in this only give the same
    result, whatever the pairs. *)
Theorem find_tenant_gmail_insensitive
  (n1 n2 w1 w2 : pystr) (pairs : list dict)
  (Hcase : lower n1 = lower n2)
  (Hw1 : forallb is_space w1 = true)
  (Hw2 : forallb is_space w2 = true) :
  find_tenant_gmail (VStr (w1 ++ n1 ++ w2)) pairs
  = find_tenant_gmail (VStr n2) pairs.
Proof.
  assert (E : lower (strip (w1 ++ n1 ++ w2)) = lower (strip n2)).
  { rewrite strip_pad by assumption.
    rewrite <- !strip_lower, Hcase. reflexivity. }
  induction pairs as [|p rest IH]; [reflexivity|].
  cbn [find_tenant_gmail method_strip].
  destruct (method_strip (get_or p (lit "tenant_name") (VStr []))); cbn [bind];
    [|reflexivity].
  rewrite E, IH. reflexivity.
Qed.

Lemma find_tenant_gmail_insensitive_example :
  find_tenant_gmail (VStr (lit "  ACME Corp "))
    [ [(lit "tenant_name", VStr (lit "Acme corp")); (lit "gmail_address", VStr (lit "a@gmail.com"))] ]
  = find_tenant_gmail (VStr (lit "acme CORP"))
    [ [(lit "tenant_name", VStr (lit "Acme corp")); (lit "gmail_address", VStr (lit "a@gmail.com"))] ].
Proof.
  apply (find_tenant_gmail_insensitive (lit "ACME Corp") (lit "acme CORP")
           (lit "  ") (lit " ")); reflexivity.
Defined.

(** ** The Gmail settings *)

Lemma drop_email_chars_split (s : pystr) :
  exists local, s = local ++ drop_email_chars s
                /\ forallb email_char local = true.
Proof.
  induction s as [|c s [local [E L]]]; cbn [drop_email_chars].
  - exists []. auto.
  - destruct (email_char c) eqn:C.
    + exists (c :: local). cbn [app forallb]. rewrite C, L.
      split; [f_equal; exact E | reflexivity].
    + exists []. auto.
Qed.

(** What the pattern accepts, among the texts that [strip] returns. *)
Lemma matches_email_pattern_stripped (g : pystr) :
  matches_email_pattern (strip g) = true -> well_formed_gmail (VStr (strip g)).
Proof.
  unfold matches_email_pattern, well_formed_gmail.
  destruct (strip g) as [|c t] eqn:S; [discriminate|].
  intros H. apply andb_true_iff in H as [C H].
  destruct (drop_email_chars_split (c :: t)) as [local [E L]].
  unfold in_list in H. cbn [existsb] in H. rewrite orb_false_r in H.
  apply orb_true_iff in H as [H | H]; apply pystr_eqb_eq in H; rewrite H in E.
  - exists local. split; [congruence|]. split; [|exact L].
    intros ->. cbn [app] in E. injection E as -> _. discriminate C.
  - exfalso. unfold strip in S.
    assert (R : rstrip (lstrip g)
                = (local ++ lit "@gmail.com") ++ [ascii_of_nat 10]).
    { rewrite S, E, <- app_assoc. reflexivity. }
    apply rstrip_last in R. discriminate R.
Qed.

Lemma existing_gmail_false (pairs : list dict) (g : pystr) :
  existing_gmail pairs g = false -> ~ In (VStr g) (map address_of pairs).
Proof.
  unfold existing_gmail. intros H I. apply in_map_iff in I as [p [E I]].
  assert (X : existsb (fun p => eq_str (get_or_none p (lit "gmail_address")) g) pairs
              = true).
  { apply existsb_exists. exists p. split; [exact I|].
    fold (address_of p). rewrite E. apply pystr_eqb_refl. }
  congruence.
Qed.

Lemma add_gmail_cases (t g : pystr) (s : settings) :
  add_gmail t g s = s
  \/ (add_gmail t g s
      = mk_settings
          (Some (pairs_of s ++ [[ (lit "tenant_name", VStr (strip t));
                                  (lit "gmail_address", VStr (strip g)) ]]))
          (other_settings s)
      /\ matches_email_pattern (strip g) = true
      /\ existing_gmail (pairs_of s) (strip g) = false).
Proof.
  unfold add_gmail. cbv zeta.
  destruct (strip g) as [|c r] eqn:S; [left; reflexivity|].
  destruct (matches_email_pattern (c :: r)) eqn:M; cbn [negb]; [|left; reflexivity].
  destruct (existing_gmail (pairs_of s) (c :: r)) eqn:X; [left; reflexivity|].
  right. auto.
Qed.

(** X7: [add_gmail] keeps the addresses of the settings distinct and
    well formed: if no two pairs have the same address and every address
    is [local@gmail.com] with a non-empty local part made of letters,
    digits and [._%+-], the same holds after the request. *)
Theorem add_gmail_keeps_addresses_valid
  (form_tenant_name form_gmail_address : pystr) (s : settings)
  (Hdistinct : NoDup (map address_of (pairs_of s)))
  (Hformed : Forall (fun p => well_formed_gmail (address_of p)) (pairs_of s)) :
  let s' := add_gmail form_tenant_name form_gmail_address s in
  NoDup (map address_of (pairs_of s'))
  /\ Forall (fun p => well_formed_gmail (address_of p)) (pairs_of s').
Proof.
  cbv zeta.
  destruct (add_gmail_cases form_tenant_name form_gmail_address s)
    as [-> | [-> [M X]]]; [auto|].
  unfold pairs_of at 1 3. cbn [tenant_gmail_pairs]. split.
  - rewrite map_app. cbn [map]. apply NoDup_app; [assumption | | ].
    + constructor; [intros []| constructor].
    + intros a I [<- | []]. revert I.
      change (address_of _) with (VStr (strip form_gmail_address)).
      apply existing_gmail_false, X.
  - apply Forall_app. split; [assumption|].
    constructor; [|constructor].
    change (address_of _) with (VStr (strip form_gmail_address)).
    apply matches_email_pattern_stripped, M.
Qed.

Lemma add_gmail_keeps_addresses_valid_example :
  let s := mk_settings
             (Some [ [(lit "tenant_name", VStr (lit "Asha"));
                      (lit "gmail_address", VStr (lit "asha@gmail.com"))] ])
             [] in
  let s' := add_gmail (lit "Ravi") (lit " ravi.k@gmail.com ") s in
  NoDup (map address_of (pairs_of s'))
  /\ Forall (fun p => well_formed_gmail (address_of p)) (pairs_of s').
Proof.
  apply (add_gmail_keeps_addresses_valid (lit "Ravi") (lit " ravi.k@gmail.com ")).
  - vm_compute. constructor; [intros [] | constructor].
  - constructor; [|constructor].
    exists (lit "asha"). split; [reflexivity|]. split; [discriminate | reflexivity].
Defined.

(** X8: an address is registered once: a second request with the same
    address, whatever the tenant name in it, changes nothing. *)
Theorem add_gmail_twice (t1 t2 g : pystr) (s : settings) :
  add_gmail t2 g (add_gmail t1 g s) = add_gmail t1 g s.
Proof.
  destruct (add_gmail_cases t1 g s) as [E | [E [M X]]].
  - rewrite E. destruct (add_gmail_cases t2 g s) as [E2 | [E2 [M2 X2]]];
      [exact E2|].
    (* the first request was turned down although the address is valid and
       new: impossible *)
    exfalso. revert E. unfold add_gmail. cbv zeta.
    destruct (strip g) as [|c r]; [discriminate M2|].
    rewrite M2, X2. cbn [negb]. intros E.
    apply (f_equal pairs_of) in E. unfold pairs_of at 1 in E.
    cbn [tenant_gmail_pairs] in E.
    apply (f_equal (@length dict)) in E. rewrite length_app in E.
    cbn [length] in E. lia.
  - rewrite E. unfold add_gmail. cbv zeta.
    destruct (strip g) as [|c r]; [reflexivity|].
    rewrite M. cbn [negb].
    unfold pairs_of at 1. cbn [tenant_gmail_pairs].
    unfold existing_gmail. rewrite existsb_app. cbn [existsb].
    unfold get_or_none, get_or. cbn [dict_get].
    change (pystr_eqb (lit "tenant_name") (lit "gmail_address")) with false.
    change (pystr_eqb (lit "gmail_address") (lit "gmail_address")) with true.
    cbn [eq_str]. rewrite pystr_eqb_refl. cbn [orb]. rewrite orb_true_r.
    reflexivity.
Qed.

Lemma filter_length_le {A : Type} (f : A -> bool) (l : list A) :
  (length (filter f l) <= length l)%nat.
Proof.
  induction l as [|x l IH]; cbn [filter length]; [lia|].
  destruct (f x); cbn [length]; lia.
Qed.

Lemma filter_same_length {A : Type} (f : A -> bool) (l : list A) :
  length (filter f l) = length l -> filter f l = l.
Proof.
  induction l as [|x l IH]; cbn [filter length]; [reflexivity|].
  destruct (f x); cbn [length]; intros H.
  - f_equal. apply IH. lia.
  - pose proof (filter_length_le f l). lia.
Qed.

(** X9: after [remove_gmail] no pair has the address, and the pairs with
    another address are all kept, in their order. *)
Theorem remove_gmail_removes (form_gmail_address : pystr) (s : settings) :
  strip form_gmail_address <> [] ->
  pairs_of (remove_gmail form_gmail_address s)
  = filter (fun p => negb (eq_str (address_of p) (strip form_gmail_address)))
           (pairs_of s).
Proof.
  intros N. unfold remove_gmail. cbv zeta.
  destruct (strip form_gmail_address) as [|c r] eqn:S; [congruence|].
  fold address_of.
  set (f := fun p => negb (eq_str (address_of p) (c :: r))).
  change (filter (fun p => negb (eq_str (get_or_none p (lit "gmail_address")) (c :: r)))
                 (pairs_of s)) with (filter f (pairs_of s)).
  destruct (length (filter f (pairs_of s)) <? length (pairs_of s))%nat eqn:L.
  - reflexivity.
  - apply Nat.ltb_ge in L. pose proof (filter_length_le f (pairs_of s)).
    symmetry. apply filter_same_length. lia.
Qed.

Lemma remove_gmail_removes_example :
  strip (lit " a@gmail.com ") <> []
  /\ pairs_of (remove_gmail (lit " a@gmail.com ")
       (mk_settings (Some [ [(lit "tenant_name", VStr (lit "A")); (lit "gmail_address", VStr (lit "a@gmail.com"))];
                            [(lit "tenant_name", VStr (lit "B")); (lit "gmail_address", VStr (lit "b@gmail.com"))] ]) []))
     = filter (fun p => negb (eq_str (address_of p) (strip (lit " a@gmail.com "))))
         [ [(lit "tenant_name", VStr (lit "A")); (lit "gmail_address", VStr (lit "a@gmail.com"))];
           [(lit "tenant_name", VStr (lit "B")); (lit "gmail_address", VStr (lit "b@gmail.com"))] ].
Proof.
  split; [vm_compute; discriminate|].
  apply (remove_gmail_removes (lit " a@gmail.com ")). vm_compute. discriminate.
Defined.

(** X10: removing an address that a request has just added gives back the
    pairs there were before. *)
Theorem add_then_remove_gmail (t g : pystr) (s : settings)
  (Hadded : add_gmail t g s <> s) :
  pairs_of (remove_gmail g (add_gmail t g s)) = pairs_of s.
Proof.
  destruct (add_gmail_cases t g s) as [E | [E [M X]]]; [contradiction|].
  assert (N : strip g <> []).
  { intros Z. rewrite Z in M. discriminate M. }
  rewrite (remove_gmail_removes g _ N), E.
  unfold pairs_of at 1. cbn [tenant_gmail_pairs].
  rewrite filter_app. cbn [filter].
  change (address_of [(lit "tenant_name", VStr (strip t));
                      (lit "gmail_address", VStr (strip g))])
    with (VStr (strip g)).
  cbn [eq_str]. rewrite pystr_eqb_refl. cbn [negb]. rewrite app_nil_r.
  apply filter_same_length. f_equal.
  clear E Hadded. unfold existing_gmail in X. unfold address_of.
  induction (pairs_of s) as [|p l IH]; [reflexivity|].
  cbn [existsb] in X. apply orb_false_iff in X as [Xp Xl].
  cbn [filter]. rewrite Xp. cbn [negb length]. f_equal. auto.
Qed.

Lemma add_then_remove_gmail_example :
  pairs_of (remove_gmail (lit "a@gmail.com")
              (add_gmail (lit "A") (lit "a@gmail.com") (mk_settings None [])))
  = pairs_of (mk_settings None []).
Proof.
  apply (add_then_remove_gmail (lit "A") (lit "a@gmail.com")).
  vm_compute. discriminate.
Defined.

(** ** The shapes of the normalised values *)

Lemma take_number_shape (c : ascii) (t : pystr) :
  is_digit c = true -> is_number_text (take_number (c :: t)).
Proof.
  intros D. unfold is_number_text, take_number.
  exists (take_digits (c :: t)). eexists. split; [reflexivity|].
  split; [cbn [take_digits]; rewrite D; discriminate|].
  split; [apply take_digits_all|].
  destruct (drop_digits (c :: t)) as [|x u]; [left; reflexivity|].
  destruct (Ascii.eqb x ".") eqn:E; [|left; reflexivity].
  apply Ascii.eqb_eq in E. subst x. right. eexists. split; [reflexivity|].
  apply take_digits_all.
Qed.

Lemma first_number_shape (s n : pystr) :
  first_number s = Some n -> is_number_text n.
Proof.
  induction s as [|c s IH]; cbn [first_number]; [discriminate|].
  destruct (is_digit c) eqn:D; [|exact IH].
  intros H. injection H as <-. apply take_number_shape, D.
Qed.

(** X11: on every string the four numeric normalisers other than
    [normalize_maintenance_amount] return [""] or a value of the shape of
    the field: digits for the area, the decimal text of a number (without
    leading zeros) for the periods, digits with at most one point, which
    is followed by digits only, for the rent, and the same followed by [%]
    for the escalation. *)
Theorem normalized_shapes (s : pystr) :
  (exists r, normalize_area_sqft (VStr s) = Ok r
             /\ forallb is_digit r = true)
  /\ (exists r, normalize_period_of_rent (VStr s) = Ok r
                /\ (r = [] \/ exists n, r = str_of_N n))
  /\ (exists r, normalize_rent_amount (VStr s) = Ok r
                /\ (r = [] \/ is_number_text r))
  /\ (exists r, normalize_rent_escalation (VStr s) = Ok r
                /\ (r = [] \/ exists n, r = n ++ lit "%" /\ is_number_text n)).
Proof.
  repeat split.
  - eexists. split; [apply normalize_area_sqft_str|].
    destruct (first_integer s) as [d|] eqn:F; [|reflexivity].
    apply first_integer_digits in F as [_ D]. exact D.
  - eexists. split; [apply normalize_period_of_rent_str|].
    unfold period_in_months. destruct (first_integer s) as [d|]; [|left; reflexivity].
    right. eexists. apply str_of_int_nonneg.
    pose proof (unit_factor_nonneg (lower s)). lia.
  - eexists. split; [apply normalize_rent_amount_str|].
    destruct (first_number s) as [n|] eqn:F; [|left; reflexivity].
    right. exact (first_number_shape _ _ F).
  - eexists. split; [apply normalize_rent_escalation_str|].
    destruct (first_number s) as [n|] eqn:F; [|left; reflexivity].
    right. exists n. split; [reflexivity | exact (first_number_shape _ _ F)].
Qed.

(** ** Alerts only grow more urgent *)

Lemma alert_branch_rank (today1 today2 d3 d2 d1 T : date) :
  (toordinal today1 <= toordinal today2)%Z ->
  (toordinal d3 <= toordinal d2 <= toordinal d1)%Z ->
  (toordinal d1 <= toordinal T)%Z ->
  (tier_rank (branch_status (alert_branch today1 d3 d2 d1 T))
   <= tier_rank (branch_status (alert_branch today2 d3 d2 d1 T)))%nat.
Proof.
  intros H H1 H2. unfold alert_branch, date_ltb, date_leb.
  repeat match goal with
         | |- context [(?a <? ?b)%Z] =>
             let E := fresh "E" in
             destruct (Z.ltb_spec a b) as [E|E]
         | |- context [(?a <=? ?b)%Z] =>
             let E := fresh "E" in
             destruct (Z.leb_spec a b) as [E|E]
         end;
    cbn [andb branch_status]; try lia;
    vm_compute; lia.
Qed.

(** X12: for a given expiry text the status never becomes less urgent as
    the days pass: with [""] first, then "three_months", "two_months",
    "one_month" and "expired", the status of a later day is never before
    that of an earlier day. *)
Theorem alert_status_escalates
  (now1 now2 : datetime) (s : pystr)
  (Hlater : (toordinal (dt_date now1) <= toordinal (dt_date now2))%Z) :
  exists t1 t2,
    calculate_alert_status now1 (VStr s) = Ok t1
    /\ calculate_alert_status now2 (VStr s) = Ok t2
    /\ (tier_rank t1 <= tier_rank t2)%nat.
Proof.
  destruct (parse_date_returns date_formats (strip s)) as [[T|] P].
  - rewrite !(calculate_alert_status_parsed _ s T P).
    destruct (toordinal T <=? 90)%Z; [exists [], []; auto|].
    eexists. eexists. split; [reflexivity|]. split; [reflexivity|].
    apply alert_branch_rank; cbn [toordinal]; lia.
  - rewrite !(calculate_alert_status_unparsed _ s P). exists [], []. auto.
Qed.

Lemma alert_status_escalates_example :
  exists t1 t2,
    calculate_alert_status (at_day (day_of 2025 3 10)) (VStr (lit "2025-06-01")) = Ok t1
    /\ calculate_alert_status (at_day (day_of 2025 5 20)) (VStr (lit "2025-06-01")) = Ok t2
    /\ (tier_rank t1 <= tier_rank t2)%nat.
Proof.
  apply (alert_status_escalates (at_day (day_of 2025 3 10)) (at_day (day_of 2025 5 20))).
  vm_compute. discriminate.
Defined.

(** ** The normalisation pass *)

Lemma update_with_ok (f : pyval -> res pystr) (k : pystr) (a a' : dict) :
  update_with f k a = Ok a' ->
  exists r, f (get_or a k (VStr [])) = Ok r /\ a' = dict_set a k (VStr r).
Proof.
  unfold update_with. intros H. apply bind_ok in H as [r [F H]].
  injection H as <-. eauto.
Qed.

Lemma get_or_set_same (d : dict) (k : pystr) (v default : pyval) :
  get_or (dict_set d k v) k default = v.
Proof. unfold get_or. rewrite dict_get_set_same. reflexivity. Qed.

Lemma get_or_set_other (d : dict) (k k' : pystr) (v default : pyval) :
  k <> k' -> get_or (dict_set d k v) k' default = get_or d k' default.
Proof. intros N. unfold get_or. rewrite dict_get_set_other by exact N. reflexivity. Qed.

Lemma has_key_set_other (d : dict) (k k' : pystr) (v : pyval) :
  k <> k' -> has_key (dict_set d k v) k' = has_key d k'.
Proof. intros N. unfold has_key. rewrite dict_get_set_other by exact N. reflexivity. Qed.

Lemma is_blank_text_of (v : pyval) : is_blank v = is_blank (VStr (text_of v)).
Proof.
  unfold text_of. destruct (truthy v) eqn:T.
  - apply is_blank_truthy, T.
  - unfold is_blank. rewrite T. reflexivity.
Qed.

Lemma not_blank_text_of (v : pyval) :
  is_blank (VStr (text_of v)) = false -> py_str v = text_of v.
Proof.
  unfold text_of. destruct (truthy v); [reflexivity | discriminate].
Qed.

Ltac through_text_of v :=
  rewrite (is_blank_text_of v);
  destruct (is_blank (VStr (text_of v))) eqn:B; [reflexivity|];
  cbn [py_str]; rewrite (not_blank_text_of v B); reflexivity.

Lemma normalize_area_sqft_text_of (v : pyval) :
  normalize_area_sqft v = normalize_area_sqft (VStr (text_of v)).
Proof. unfold normalize_area_sqft. through_text_of v. Qed.

Lemma normalize_floor_text_of (v : pyval) :
  normalize_floor v = normalize_floor (VStr (text_of v)).
Proof. unfold normalize_floor. through_text_of v. Qed.

Lemma normalize_building_text_of (v : pyval) :
  normalize_building v = normalize_building (VStr (text_of v)).
Proof. unfold normalize_building. through_text_of v. Qed.

Lemma normalize_rent_amount_text_of (v : pyval) :
  normalize_rent_amount v = normalize_rent_amount (VStr (text_of v)).
Proof. unfold normalize_rent_amount. through_text_of v. Qed.

Lemma normalize_rent_escalation_text_of (v : pyval) :
  normalize_rent_escalation v = normalize_rent_escalation (VStr (text_of v)).
Proof. unfold normalize_rent_escalation. through_text_of v. Qed.

Lemma normalize_maintenance_amount_text_of (v : pyval) :
  normalize_maintenance_amount v = normalize_maintenance_amount (VStr (text_of v)).
Proof. unfold normalize_maintenance_amount. through_text_of v. Qed.

Ltac fixed_by idem of_text v H :=
  rewrite of_text in H;
  let r := fresh "r" in let A := fresh "A" in let B := fresh "B" in
  destruct (idem (text_of v)) as [r [A B]];
  rewrite A in H; injection H as <-; exact B.

Lemma normalize_area_sqft_fixed (v : pyval) (r : pystr) :
  normalize_area_sqft v = Ok r -> normalize_area_sqft (VStr r) = Ok r.
Proof. intros H. fixed_by normalize_area_sqft_idempotent normalize_area_sqft_text_of v H. Qed.

Lemma normalize_floor_fixed (v : pyval) (r : pystr) :
  normalize_floor v = Ok r -> normalize_floor (VStr r) = Ok r.
Proof. intros H. fixed_by normalize_floor_idempotent normalize_floor_text_of v H. Qed.

Lemma normalize_building_fixed (v : pyval) (r : pystr) :
  normalize_building v = Ok r -> normalize_building (VStr r) = Ok r.
Proof. intros H. fixed_by normalize_building_idempotent normalize_building_text_of v H. Qed.

Lemma normalize_rent_amount_fixed (v : pyval) (r : pystr) :
  normalize_rent_amount v = Ok r -> normalize_rent_amount (VStr r) = Ok r.
Proof. intros H. fixed_by normalize_rent_amount_idempotent normalize_rent_amount_text_of v H. Qed.

Lemma normalize_rent_escalation_fixed (v : pyval) (r : pystr) :
  normalize_rent_escalation v = Ok r -> normalize_rent_escalation (VStr r) = Ok r.
Proof.
  intros H.
  fixed_by normalize_rent_escalation_idempotent normalize_rent_escalation_text_of v H.
Qed.

(** The two functions that call [strip] on the value itself return on a
    string and on a false value, and on nothing else. *)
Ltac raw_case :=
  destruct (negb (truthy _));
  (split;
   [ intros [? H]; try discriminate H; reflexivity
   | intros H; try discriminate H; eauto ]).

Lemma is_blank_raw_returns (v : pyval) :
  (exists b, is_blank_raw v = Ok b) <-> is_text_or_falsy v = true.
Proof.
  unfold is_blank_raw.
  destruct v as [|b|z|f|s]; cbn [is_text_or_falsy method_strip bind].
  - raw_case.
  - raw_case.
  - raw_case.
  - raw_case.
  - split; [reflexivity|]. intros _. destruct (negb (truthy (VStr s))); eauto.
Qed.

Lemma falsy_not_text (v : pyval) :
  is_text_or_falsy v = true -> (exists s, v = VStr s) \/ truthy v = false.
Proof.
  destruct v; cbn [is_text_or_falsy]; eauto;
    intros H; right; apply negb_true_iff, H.
Qed.

Lemma normalize_period_of_rent_returns (v : pyval) :
  (exists r, normalize_period_of_rent v = Ok r) <-> is_text_or_falsy v = true.
Proof.
  split.
  - intros [r H]. unfold normalize_period_of_rent in H.
    apply bind_ok in H as [b [H _]]. apply is_blank_raw_returns. eauto.
  - intros H. destruct (falsy_not_text v H) as [[s ->] | T].
    + apply (total_on_strings (mk_datetime (mk_date 1) 0) s).
    + exists []. unfold normalize_period_of_rent, is_blank_raw.
      rewrite T. reflexivity.
Qed.

Lemma normalize_period_of_rent_fixed (v : pyval) (r : pystr) :
  normalize_period_of_rent v = Ok r -> normalize_period_of_rent (VStr r) = Ok r.
Proof.
  intros H.
  assert (T : is_text_or_falsy v = true)
    by (apply normalize_period_of_rent_returns; eauto).
  destruct (falsy_not_text v T) as [[s ->] | F].
  - destruct (normalize_period_of_rent_idempotent s) as [r' [A B]].
    rewrite A in H. injection H as <-. exact B.
  - unfold normalize_period_of_rent, is_blank_raw in H. rewrite F in H.
    injection H as <-. reflexivity.
Qed.

Lemma calculate_alert_status_returns (now : datetime) (v : pyval) :
  (exists t, calculate_alert_status now v = Ok t) <-> is_text_or_falsy v = true.
Proof.
  split.
  - intros [r H]. unfold calculate_alert_status in H.
    apply bind_ok in H as [b [H _]]. apply is_blank_raw_returns. eauto.
  - intros H. destruct (falsy_not_text v H) as [[s ->] | T].
    + apply (total_on_strings now s).
    + exists []. unfold calculate_alert_status, is_blank_raw.
      rewrite T. reflexivity.
Qed.

Lemma calculate_alert_status_tier (now : datetime) (v : pyval) (t : pystr) :
  calculate_alert_status now v = Ok t -> In t alert_tiers.
Proof.
  intros H.
  assert (T : is_text_or_falsy v = true)
    by (apply (proj1 (calculate_alert_status_returns now v)); eauto).
  destruct (falsy_not_text v T) as [[s ->] | F].
  - destruct (calculate_alert_status_total now s) as [t' [A B]].
    rewrite A in H. injection H as <-. exact B.
  - unfold calculate_alert_status, is_blank_raw in H. rewrite F in H.
    injection H as <-. left. reflexivity.
Qed.

Ltac keys_differ :=
  let E := fresh "E" in intros E; vm_compute in E; discriminate E.

Ltac read_through :=
  repeat first
    [ rewrite get_or_set_same
    | rewrite get_or_set_other by keys_differ
    | rewrite has_key_set_other by keys_differ ].

Lemma dict_get_set (d : dict) (k k' : pystr) (v : pyval) :
  dict_get (dict_set d k v) k'
  = if pystr_eqb k k' then Some v else dict_get d k'.
Proof.
  destruct (pystr_eqb k k') eqn:E.
  - apply pystr_eqb_eq in E. subst k'. apply dict_get_set_same.
  - apply dict_get_set_other. intros ->. rewrite pystr_eqb_refl in E. discriminate.
Qed.

Lemma from_place_occupied_ok (a a' : dict) :
  from_place_occupied a = Ok a' ->
  (is_legacy a = false /\ a' = a)
  \/ (is_legacy a = true
      /\ exists ar fl bu,
          normalize_area_sqft (get_or a (lit "place_occupied") (VStr [])) = Ok ar
          /\ normalize_floor (get_or a (lit "place_occupied") (VStr [])) = Ok fl
          /\ normalize_building (get_or a (lit "place_occupied") (VStr [])) = Ok bu
          /\ a' = dict_set (dict_set (dict_set a (lit "area_sqft") (VStr ar))
                              (lit "floor") (VStr fl))
                    (lit "building") (VStr bu)).
Proof.
  unfold from_place_occupied. fold (is_legacy a).
  destruct (is_legacy a); intros H.
  - right. split; [reflexivity|].
    apply bind_ok in H as [ar [A H]].
    apply bind_ok in H as [fl [F H]].
    apply bind_ok in H as [bu [B H]].
    injection H as <-. exists ar, fl, bu. auto.
  - left. injection H as <-. auto.
Qed.

(** What a pass that returns has written. *)
Lemma renormalize_fields (now : datetime) (a a' : dict) :
  renormalize now a = Ok a' ->
  exists t ar fl bu pe re ma es lo,
    calculate_alert_status now
      (get_or a (lit "agreement_expiry_date") (VStr [])) = Ok t
    /\ normalize_area_sqft
         (get_or a (if is_legacy a then lit "place_occupied" else lit "area_sqft")
            (VStr [])) = Ok ar
    /\ normalize_floor
         (get_or a (if is_legacy a then lit "place_occupied" else lit "floor")
            (VStr [])) = Ok fl
    /\ normalize_building
         (get_or a (if is_legacy a then lit "place_occupied" else lit "building")
            (VStr [])) = Ok bu
    /\ normalize_period_of_rent (get_or a (lit "period_of_rent") (VStr [])) = Ok pe
    /\ normalize_rent_amount (get_or a (lit "rent_amount") (VStr [])) = Ok re
    /\ normalize_maintenance_amount (get_or a (lit "maintenance") (VStr [])) = Ok ma
    /\ normalize_rent_escalation (get_or a (lit "rent_escalation") (VStr [])) = Ok es
    /\ normalize_period_of_rent (get_or a (lit "lock_in_period") (VStr [])) = Ok lo
    /\ forall k,
        dict_get a' k
        = dict_get
            (with_normalized a t ar fl bu pe re ma es lo
               (normalize_boolean_flag
                  (get_or a (lit "rental_period_greater_than_lock_in_period")
                     (VStr [])))) k.
Proof.
  unfold renormalize. intros H.
  apply bind_ok in H as [t [T H]].
  apply bind_ok in H as [a1 [L H]].
  apply bind_ok in H as [a2 [H2 H]]. apply update_with_ok in H2 as [ar [Ar ->]].
  apply bind_ok in H as [a3 [H3 H]]. apply update_with_ok in H3 as [fl [Fl ->]].
  apply bind_ok in H as [a4 [H4 H]]. apply update_with_ok in H4 as [bu [Bu ->]].
  apply bind_ok in H as [a5 [H5 H]]. apply update_with_ok in H5 as [pe [Pe ->]].
  apply bind_ok in H as [a6 [H6 H]]. apply update_with_ok in H6 as [re [Re ->]].
  apply bind_ok in H as [a7 [H7 H]]. apply update_with_ok in H7 as [ma [Ma ->]].
  apply bind_ok in H as [a8 [H8 H]]. apply update_with_ok in H8 as [es [Es ->]].
  apply bind_ok in H as [a9 [H9 H]]. apply update_with_ok in H9 as [lo [Lo ->]].
  injection H as <-.
  exists t, ar, fl, bu, pe, re, ma, es, lo.
  split; [exact T|].
  assert (Lg : is_legacy (dict_set a (lit "alert_status") (VStr t)) = is_legacy a).
  { unfold is_legacy, get_or_none. read_through. reflexivity. }
  apply from_place_occupied_ok in L.
  rewrite Lg in L.
  destruct L as [[Lf ->] | [Lt [ar0 [fl0 [bu0 [A0 [F0 [B0 ->]]]]]]]].
  - rewrite Lf. read_through.
    revert Ar Fl Bu Pe Re Ma Es Lo. read_through. intros.
    repeat (split; [assumption|]).
    intros k. unfold with_normalized. cbv zeta. read_through. reflexivity.
  - rewrite Lt.
    revert Ar Fl Bu Pe Re Ma Es Lo A0 F0 B0. read_through. intros.
    apply normalize_area_sqft_fixed in A0 as A1.
    apply normalize_floor_fixed in F0 as F1.
    apply normalize_building_fixed in B0 as B1.
    assert (ar = ar0) by congruence.
    assert (fl = fl0) by congruence.
    assert (bu = bu0) by congruence.
    subst ar0 fl0 bu0.
    repeat (split; [assumption|]).
    intros k. unfold with_normalized. cbv zeta. read_through.
    rewrite !dict_get_set. cbv [lit list_ascii_of_string].
    repeat match goal with
           | |- context [pystr_eqb ?x k] => destruct (pystr_eqb x k)
           end; reflexivity.
Qed.

Ltac other_key Hk :=
  let E := fresh "E" in
  intros E; apply Hk; rewrite <- E; cbn [In normalized_keys]; auto 15.

(** X13: the pass writes ten keys and no other: a key that is not among
    them (the tenant, the dates, the id, ["place_occupied"], ...) has
    after the pass the value it had, or is still absent. *)
Theorem renormalize_keeps_other_keys
  (now : datetime) (agreement agreement' : dict) (k : pystr)
  (Hk : ~ In k normalized_keys)
  (Hok : renormalize now agreement = Ok agreement') :
  dict_get agreement' k = dict_get agreement k.
Proof.
  destruct (renormalize_fields now agreement agreement' Hok)
    as [t [ar [fl [bu [pe [re [ma [es [lo [_ [_ [_ [_ [_ [_ [_ [_ [_ E]]]]]]]]]]]]]]]]]].
  rewrite E. unfold with_normalized. cbv zeta.
  rewrite !dict_get_set_other by other_key Hk. reflexivity.
Qed.

Lemma renormalize_keeps_other_keys_example :
  dict_get example_normalized (lit "id") = dict_get example_agreement (lit "id").
Proof.
  apply (renormalize_keeps_other_keys (at_day (day_of 2025 3 10))).
  - vm_compute. intuition discriminate.
  - vm_compute. reflexivity.
Defined.

Lemma renormalize_legacy_test (a : dict) :
  has_key a (lit "place_occupied") = true ->
  truthy (get_or_none a (lit "area_sqft")) = false ->
  is_legacy a = true.
Proof. unfold is_legacy. intros -> ->. reflexivity. Qed.

(** X14: a record of the old format, with ["place_occupied"] and no area,
    leaves the pass with the area, the floor and the building that the
    three normalisers read off ["place_occupied"], whatever it had under
    ["floor"] and ["building"]. *)
Theorem renormalize_legacy_place
  (now : datetime) (agreement agreement' : dict)
  (Hplace : has_key agreement (lit "place_occupied") = true)
  (Harea : truthy (get_or_none agreement (lit "area_sqft")) = false)
  (Hok : renormalize now agreement = Ok agreement') :
  let place := get_or agreement (lit "place_occupied") (VStr []) in
  exists area floor building,
    normalize_area_sqft place = Ok area
    /\ normalize_floor place = Ok floor
    /\ normalize_building place = Ok building
    /\ dict_get agreement' (lit "area_sqft") = Some (VStr area)
    /\ dict_get agreement' (lit "floor") = Some (VStr floor)
    /\ dict_get agreement' (lit "building") = Some (VStr building).
Proof.
  cbv zeta.
  destruct (renormalize_fields now agreement agreement' Hok)
    as [t [ar [fl [bu [pe [re [ma [es [lo [_ [Ar [Fl [Bu [_ [_ [_ [_ [_ E]]]]]]]]]]]]]]]]]].
  rewrite (renormalize_legacy_test agreement Hplace Harea) in Ar, Fl, Bu.
  exists ar, fl, bu.
  repeat (split; [assumption|]).
  rewrite !E. unfold with_normalized. cbv zeta.
  rewrite !dict_get_set. cbv [lit list_ascii_of_string].
  repeat split; vm_compute; reflexivity.
Qed.

Lemma renormalize_legacy_place_example :
  let place := get_or example_legacy (lit "place_occupied") (VStr []) in
  exists area floor building,
    normalize_area_sqft place = Ok area
    /\ normalize_floor place = Ok floor
    /\ normalize_building place = Ok building
    /\ dict_get example_legacy_normalized (lit "area_sqft") = Some (VStr area)
    /\ dict_get example_legacy_normalized (lit "floor") = Some (VStr floor)
    /\ dict_get example_legacy_normalized (lit "building") = Some (VStr building).
Proof.
  apply (renormalize_legacy_place (at_day (day_of 2025 3 10))).
  - reflexivity.
  - reflexivity.
  - vm_compute. reflexivity.
Defined.

Lemma get_or_ext (d d' : dict) (k : pystr) (default : pyval) :
  (forall k, dict_get d k = dict_get d' k) ->
  get_or d k default = get_or d' k default.
Proof. intros E. unfold get_or. rewrite E. reflexivity. Qed.

Lemma is_legacy_ext (d d' : dict) :
  (forall k, dict_get d k = dict_get d' k) -> is_legacy d = is_legacy d'.
Proof.
  intros E. unfold is_legacy, has_key, get_or_none, get_or. rewrite !E. reflexivity.
Qed.

Lemma truthy_text_nil (s : pystr) : truthy (VStr s) = false -> s = [].
Proof. destruct s; [reflexivity | discriminate]. Qed.

(** X15: but for ["maintenance"], a second pass on the same day changes
    nothing: every other key has after it the value that the first pass
    left.  This holds for a record without ["place_occupied"], and for
    one with ["place_occupied"] and no area. *)
Theorem renormalize_twice
  (now : datetime) (agreement agreement1 agreement2 : dict) (k : pystr)
  (Hlegacy : has_key agreement (lit "place_occupied") = false
             \/ truthy (get_or_none agreement (lit "area_sqft")) = false)
  (Hfirst : renormalize now agreement = Ok agreement1)
  (Hsecond : renormalize now agreement1 = Ok agreement2)
  (Hk : k <> lit "maintenance") :
  dict_get agreement2 k = dict_get agreement1 k.
Proof.
  destruct (renormalize_fields now agreement agreement1 Hfirst)
    as [t [ar [fl [bu [pe [re [ma [es [lo
         [T [Ar [Fl [Bu [Pe [Re [Ma [Es [Lo E]]]]]]]]]]]]]]]]]].
  destruct (renormalize_fields now agreement1 agreement2 Hsecond)
    as [t' [ar' [fl' [bu' [pe' [re' [ma' [es' [lo'
         [T' [Ar' [Fl' [Bu' [Pe' [Re' [Ma' [Es' [Lo' E']]]]]]]]]]]]]]]]]].
  set (fg := normalize_boolean_flag
               (get_or agreement (lit "rental_period_greater_than_lock_in_period")
                  (VStr []))) in *.
  set (n := with_normalized agreement t ar fl bu pe re ma es lo fg) in *.
  assert (Lg : is_legacy agreement1
               = has_key agreement (lit "place_occupied") && negb (truthy (VStr ar))).
  { rewrite (is_legacy_ext _ _ E). unfold n, with_normalized, is_legacy, get_or_none.
    cbv zeta. read_through. reflexivity. }
  assert (G : forall key, get_or agreement1 key (VStr []) = get_or n key (VStr []))
    by (intros key; apply get_or_ext, E).
  rewrite G in T', Pe', Re', Es', Lo', E'.
  rewrite G in Ar', Fl', Bu'.
  unfold n, with_normalized in T', Pe', Re', Es', Lo', E', Ar', Fl', Bu'.
  cbv zeta in T', Pe', Re', Es', Lo', E', Ar', Fl', Bu'.
  revert T' Pe' Re' Es' Lo' E'. read_through. intros T' Pe' Re' Es' Lo' E'.
  assert (t' = t) by congruence.
  assert (pe' = pe) by (apply normalize_period_of_rent_fixed in Pe; congruence).
  assert (re' = re) by (apply normalize_rent_amount_fixed in Re; congruence).
  assert (es' = es) by (apply normalize_rent_escalation_fixed in Es; congruence).
  assert (lo' = lo) by (apply normalize_period_of_rent_fixed in Lo; congruence).
  assert (X : ar' = ar /\ fl' = fl /\ bu' = bu).
  { rewrite Lg in Ar', Fl', Bu'.
    destruct (has_key agreement (lit "place_occupied")) eqn:P;
      [destruct (truthy (VStr ar)) eqn:Tr|]; cbn [andb negb] in Ar', Fl', Bu'.
    - revert Ar' Fl' Bu'. read_through. intros.
      apply normalize_area_sqft_fixed in Ar.
      apply normalize_floor_fixed in Fl.
      apply normalize_building_fixed in Bu.
      repeat split; congruence.
    - destruct Hlegacy as [Hl | Hl]; [discriminate|].
      unfold is_legacy in Ar, Fl, Bu. rewrite P, Hl in Ar, Fl, Bu.
      cbn [andb negb] in Ar, Fl, Bu.
      revert Ar' Fl' Bu'. read_through. intros.
      repeat split; congruence.
    - revert Ar' Fl' Bu'. read_through. intros.
      apply normalize_area_sqft_fixed in Ar.
      apply normalize_floor_fixed in Fl.
      apply normalize_building_fixed in Bu.
      repeat split; congruence. }
  destruct X as [-> [-> ->]]. subst t' pe' re' es' lo'.
  rewrite E'. unfold fg. rewrite normalize_boolean_flag_idempotent. fold fg.
  unfold with_normalized. cbv zeta. rewrite !dict_get_set.
  rewrite E. unfold n, with_normalized. cbv zeta. rewrite !dict_get_set.
  rewrite (pystr_eqb_neq (lit "maintenance") k) by congruence.
  cbv [lit list_ascii_of_string].
  repeat match goal with
         | |- context [pystr_eqb ?x k] => destruct (pystr_eqb x k)
         end; reflexivity.
Qed.

Lemma renormalize_twice_example :
  dict_get example_normalized_twice (lit "period_of_rent")
  = dict_get example_normalized (lit "period_of_rent").
Proof.
  apply (renormalize_twice (at_day (day_of 2025 3 10)) example_agreement).
  - left. reflexivity.
  - vm_compute. reflexivity.
  - vm_compute. reflexivity.
  - vm_compute. discriminate.
Defined.

Lemma normalize_area_sqft_digits (v : pyval) (r : pystr) :
  normalize_area_sqft v = Ok r -> forallb is_digit r = true.
Proof.
  rewrite normalize_area_sqft_text_of, normalize_area_sqft_str.
  intros H. injection H as <-.
  destruct (first_integer (text_of v)) as [d|] eqn:F; [|reflexivity].
  apply first_integer_digits in F as [_ D]. exact D.
Qed.

Lemma normalize_period_of_rent_digits (v : pyval) (r : pystr) :
  normalize_period_of_rent v = Ok r -> forallb is_digit r = true.
Proof.
  intros H.
  assert (T : is_text_or_falsy v = true)
    by (apply normalize_period_of_rent_returns; eauto).
  destruct (falsy_not_text v T) as [[s ->] | F].
  - rewrite normalize_period_of_rent_str in H. injection H as <-.
    unfold period_in_months. destruct (first_integer s) as [d|]; [|reflexivity].
    rewrite str_of_int_nonneg
      by (pose proof (unit_factor_nonneg (lower s)); lia).
    apply str_of_N_digits.
  - unfold normalize_period_of_rent, is_blank_raw in H. rewrite F in H.
    injection H as <-. reflexivity.
Qed.

Lemma normalize_boolean_flag_values (v : pyval) :
  normalize_boolean_flag v = lit "True" \/ normalize_boolean_flag v = lit "False".
Proof.
  unfold normalize_boolean_flag. destruct v as [|[]|z|f|s]; auto.
  cbv zeta. split_ifs; auto.
Qed.

(** X16: what a pass that returns leaves in the record: each of the ten
    keys holds a string; the status is [""] or one of the four alerts, the
    flag is ["True"] or ["False"], and the area, the period and the
    lock-in period are made of digits only (or are empty). *)
Theorem renormalize_output
  (now : datetime) (agreement agreement' : dict)
  (Hok : renormalize now agreement = Ok agreement') :
  (forall k, In k normalized_keys ->
             exists s, dict_get agreement' k = Some (VStr s))
  /\ (exists t, dict_get agreement' (lit "alert_status") = Some (VStr t)
                /\ In t alert_tiers)
  /\ (exists f, dict_get agreement'
                  (lit "rental_period_greater_than_lock_in_period")
                = Some (VStr f)
                /\ (f = lit "True" \/ f = lit "False"))
  /\ (forall k, In k [lit "area_sqft"; lit "period_of_rent"; lit "lock_in_period"] ->
                exists d, dict_get agreement' k = Some (VStr d)
                          /\ forallb is_digit d = true).
Proof.
  destruct (renormalize_fields now agreement agreement' Hok)
    as [t [ar [fl [bu [pe [re [ma [es [lo
         [T [Ar [Fl [Bu [Pe [Re [Ma [Es [Lo E]]]]]]]]]]]]]]]]]].
  assert (G : forall k, dict_get agreement' k = _) by exact E.
  unfold with_normalized in G. cbv zeta in G.
  refine (conj _ (conj _ (conj _ _))).
  - intros k I. rewrite G. cbn [In normalized_keys] in I.
    rewrite !dict_get_set.
    repeat (destruct I as [<- | I]; [eexists; vm_compute; reflexivity|]).
    destruct I.
  - exists t. split; [rewrite G, !dict_get_set; vm_compute; reflexivity|].
    exact (calculate_alert_status_tier _ _ _ T).
  - eexists. split; [rewrite G; rewrite dict_get_set_same; reflexivity|].
    apply normalize_boolean_flag_values.
  - intros k I. rewrite G, !dict_get_set. cbn [In] in I.
    destruct I as [<- | [<- | [<- | []]]].
    + exists ar. split; [vm_compute; reflexivity|].
      exact (normalize_area_sqft_digits _ _ Ar).
    + exists pe. split; [vm_compute; reflexivity|].
      exact (normalize_period_of_rent_digits _ _ Pe).
    + exists lo. split; [vm_compute; reflexivity|].
      exact (normalize_period_of_rent_digits _ _ Lo).
Qed.

Lemma renormalize_output_example :
  (forall k, In k normalized_keys ->
             exists s, dict_get example_normalized k = Some (VStr s))
  /\ (exists t, dict_get example_normalized (lit "alert_status") = Some (VStr t)
                /\ In t alert_tiers)
  /\ (exists f, dict_get example_normalized
                  (lit "rental_period_greater_than_lock_in_period")
                = Some (VStr f)
                /\ (f = lit "True" \/ f = lit "False"))
  /\ (forall k, In k [lit "area_sqft"; lit "period_of_rent"; lit "lock_in_period"] ->
                exists d, dict_get example_normalized k = Some (VStr d)
                          /\ forallb is_digit d = true).
Proof.
  apply (renormalize_output (at_day (day_of 2025 3 10)) example_agreement).
  vm_compute. reflexivity.
Defined.

Lemma from_place_occupied_returns (a : dict) :
  exists a', from_place_occupied a = Ok a'.
Proof.
  unfold from_place_occupied.
  destruct (has_key a (lit "place_occupied")
            && negb (truthy (get_or_none a (lit "area_sqft")))); [|eauto].
  destruct (normalize_area_sqft_returns (get_or a (lit "place_occupied") (VStr [])))
    as [ar ->].
  destruct (normalize_floor_returns (get_or a (lit "place_occupied") (VStr [])))
    as [fl ->].
  destruct (normalize_building_returns (get_or a (lit "place_occupied") (VStr [])))
    as [bu ->].
  cbn [bind]. eauto.
Qed.

(** X17: the pass returns exactly when the expiry date, the period and the
    lock-in period of the record are strings or false values ([None], [0],
    [False], a missing key) and [normalize_maintenance_amount] returns on
    its maintenance; no other field can make it fail. *)
Theorem renormalize_returns (now : datetime) (agreement : dict) :
  (exists agreement', renormalize now agreement = Ok agreement')
  <-> is_text_or_falsy
        (get_or agreement (lit "agreement_expiry_date") (VStr [])) = true
      /\ is_text_or_falsy (get_or agreement (lit "period_of_rent") (VStr [])) = true
      /\ is_text_or_falsy (get_or agreement (lit "lock_in_period") (VStr [])) = true
      /\ exists r,
          normalize_maintenance_amount
            (get_or agreement (lit "maintenance") (VStr [])) = Ok r.
Proof.
  split.
  - intros [a' H].
    destruct (renormalize_fields now agreement a' H)
      as [t [ar [fl [bu [pe [re [ma [es [lo
           [T [Ar [Fl [Bu [Pe [Re [Ma [Es [Lo E]]]]]]]]]]]]]]]]]].
    refine (conj _ (conj _ (conj _ _))).
    + apply (proj1 (calculate_alert_status_returns now _)). eauto.
    + apply normalize_period_of_rent_returns. eauto.
    + apply normalize_period_of_rent_returns. eauto.
    + eauto.
  - intros [He [Hp [Hl [ma Hm]]]].
    apply (proj2 (calculate_alert_status_returns now _)) in He as [t T].
    apply normalize_period_of_rent_returns in Hp as [pe Pe].
    apply normalize_period_of_rent_returns in Hl as [lo Lo].
    unfold renormalize. rewrite T. cbn [bind].
    destruct (from_place_occupied_returns
                (dict_set agreement (lit "alert_status") (VStr t))) as [a1 L].
    rewrite L. cbn [bind].
    assert (G : forall k, k <> lit "alert_status" -> k <> lit "area_sqft" ->
                          k <> lit "floor" -> k <> lit "building" ->
                          get_or a1 k (VStr []) = get_or agreement k (VStr [])).
    { intros k N1 N2 N3 N4.
      apply from_place_occupied_ok in L
        as [[_ ->] | [_ [ar0 [fl0 [bu0 [_ [_ [_ ->]]]]]]]];
        rewrite ?get_or_set_other by congruence; reflexivity. }
    unfold update_with.
    destruct (normalize_area_sqft_returns (get_or a1 (lit "area_sqft") (VStr [])))
      as [ar ->]. cbn [bind].
    match goal with |- context [normalize_floor ?v] =>
      destruct (normalize_floor_returns v) as [fl ->] end. cbn [bind].
    match goal with |- context [normalize_building ?v] =>
      destruct (normalize_building_returns v) as [bu ->] end. cbn [bind].
    read_through. rewrite G by keys_differ. rewrite Pe. cbn [bind].
    match goal with |- context [normalize_rent_amount ?v] =>
      destruct (normalize_rent_amount_returns v) as [re ->] end. cbn [bind].
    read_through. rewrite G by keys_differ. rewrite Hm. cbn [bind].
    match goal with |- context [normalize_rent_escalation ?v] =>
      destruct (normalize_rent_escalation_returns v) as [es ->] end. cbn [bind].
    read_through. rewrite G by keys_differ. rewrite Lo. cbn [bind].
    eauto.
Qed.
